(** * AngryCAPTCHA: the strategy cascade, the challenge extractor and the
      environment profiler of the class [AngryCAPTCHA], embedded and verified.

    Conventions of the embedding.
    - A JavaScript string is a [string]: a sequence of code units below 256.
      Every literal of the source (indicators, patterns, messages) is ASCII.
    - A JavaScript number is a [Z] (the integers, exactly; fractions and the
      rounding of doubles beyond 2^53 are left out); the 32-bit operators of
      [simpleHash] have their wrap-around written out ([toInt32]).
    - An instant ([Date.now()], [new Date()]) is the count of milliseconds;
      the ISO rendering of [timestamp] is left out.
    - [undefined]/[null] are [None]; an optional field is an [option].
    - A promise is the time at which it settles and what it settles with, or
      [None] when it never settles; an [async] function reads the clock at which
      it is called.
    - The static fields of the class ([environmentInfo], [solverConfig]) are a
      record that every method threads through. *)

From Stdlib Require Import ZArith String Ascii List Bool Lia.
From Stdlib Require Import DecimalString HexadecimalString.
From Stdlib Require HexadecimalN HexadecimalPos DecimalN DecimalPos DecimalZ.
From stdpp Require Import base option gmap strings.
Import ListNotations.

Open Scope string_scope.
Open Scope Z_scope.

(** ** JavaScript primitives used by the source *)

Module JS.

(** What a [catch (error)] clause can receive: an [Error] carrying a message,
    or any other thrown value. *)
Inductive Thrown : Type :=
| JsError (message : string)
| JsOther.

(** [error instanceof Error ? error.message : fallback] *)
Definition message_or (fallback : string) (e : Thrown) : string :=
  match e with
  | JsError m => m
  | JsOther => fallback
  end.

(** Truthiness of a string and of a number. *)
Definition truthy_string (s : string) : bool :=
  match s with
  | EmptyString => false
  | String _ _ => true
  end.

Definition truthy_number (n : Z) : bool := negb (n =? 0).

(** [x || d] on an optional string and on an optional number. *)
Definition or_string (x : option string) (d : string) : string :=
  match x with
  | Some s => if truthy_string s then s else d
  | None => d
  end.

Definition or_number (x : option Z) (d : Z) : Z :=
  match x with
  | Some n => if truthy_number n then n else d
  | None => d
  end.

(** [Number.prototype.toString()] on an integer, and [toString(16)] on a
    non-negative one. *)
Definition toString (n : Z) : string :=
  DecimalString.NilZero.string_of_int (Z.to_int n).

Definition toString16 (n : Z) : string :=
  HexadecimalString.NilZero.string_of_uint (N.to_hex_uint (Z.to_N n)).

(** [String.prototype.toLowerCase], code unit by code unit: A-Z, and the
    Latin-1 capitals other than the multiplication sign. *)
Definition lower_ascii (c : ascii) : ascii :=
  let n := nat_of_ascii c in
  if ((65 <=? n) && (n <=? 90))%nat then ascii_of_nat (n + 32)
  else if ((192 <=? n) && (n <=? 222) && negb (n =? 215))%nat
       then ascii_of_nat (n + 32)
  else c.

Fixpoint toLowerCase (s : string) : string :=
  match s with
  | EmptyString => EmptyString
  | String c s' => String (lower_ascii c) (toLowerCase s')
  end.

(** [s.startsWith(p)] *)
Definition startsWith (s p : string) : bool := String.prefix p s.

(** [s.includes(sub)] *)
Fixpoint includes (s sub : string) : bool :=
  if startsWith s sub then true
  else match s with
       | EmptyString => false
       | String _ s' => includes s' sub
       end.

(** [s.substring(0, n)] *)
Definition substring0 (n : nat) (s : string) : string := String.substring 0 n s.

(** ['0'.repeat(count)]: a [RangeError] on a negative count and on a
    count beyond the longest string. *)
Fixpoint zeros (n : nat) : string :=
  match n with
  | O => EmptyString
  | S n' => String "0"%char (zeros n')
  end.

(** The longest string that the engine builds (V8 on 64 bits). *)
Definition MAX_STRING_LENGTH : Z := 2 ^ 29 - 24.

Definition repeat0 (count : Z) : Thrown + string :=
  if count <? 0
  then inl (JsError ("Invalid count value: " ++ toString count))
  else if MAX_STRING_LENGTH <? count
  then inl (JsError "Invalid string length")
  else inr (zeros (Z.to_nat count)).

(** [ToInt32]: the signed 32-bit value congruent to [z]. *)
Definition toInt32 (z : Z) : Z := (z + 2 ^ 31) mod 2 ^ 32 - 2 ^ 31.

(** [x << k] and [x & y] on numbers. *)
Definition shl (x k : Z) : Z := toInt32 (Z.shiftl (toInt32 x) k).
Definition band (x y : Z) : Z := Z.land (toInt32 x) (toInt32 y).

(** [JSON.stringify] of a string: quotes, backslashes and control
    characters are escaped. *)
Definition dquote : ascii := ascii_of_nat 34.
Definition backslash : ascii := ascii_of_nat 92.
Definition esc (c : ascii) : string := String backslash (String c EmptyString).

Definition hex_digit (n : nat) : ascii :=
  if (n <? 10)%nat then ascii_of_nat (48 + n) else ascii_of_nat (87 + n).

Definition json_escape (c : ascii) : string :=
  let n := nat_of_ascii c in
  if (n =? 34)%nat then esc dquote
  else if (n =? 92)%nat then esc backslash
  else if (n =? 8)%nat then esc "b"%char
  else if (n =? 9)%nat then esc "t"%char
  else if (n =? 10)%nat then esc "n"%char
  else if (n =? 12)%nat then esc "f"%char
  else if (n =? 13)%nat then esc "r"%char
  else if (n <? 32)%nat
       then esc "u"%char ++ "00"
            ++ String (hex_digit (n / 16)) (String (hex_digit (n mod 16)) EmptyString)
  else String c EmptyString.

Fixpoint json_body (s : string) : string :=
  match s with
  | EmptyString => EmptyString
  | String c s' => json_escape c ++ json_body s'
  end.

Definition json_string (s : string) : string :=
  String dquote (json_body s) ++ String dquote EmptyString.

End JS.

(** ** Regular expressions

    The fragment of JavaScript regular expressions that the extraction
    patterns use: literal characters, character classes, [\s], [\d], [.],
    the greedy quantifiers [*] and [+], and one capture group. All patterns
    carry the [i] flag, so a literal matches in either case. Matching is the
    backtracking search of [RegExp.prototype.exec]: leftmost start, longest
    repetition first. *)

Module Regex.

Inductive atom : Type :=
| Lit (c : ascii)
| OneOf (cs : list ascii)
| NoneOf (cs : list ascii)
| Space
| Digit
| Dot.

Inductive quant : Type := Once | Star | Plus.

Inductive node : Type :=
| Item (a : atom) (q : quant)
| Open
| Close.

Definition pattern : Type := list node.

Definition mem (c : ascii) (cs : list ascii) : bool :=
  existsb (Ascii.eqb c) cs.

Definition is_space (c : ascii) : bool :=
  let n := nat_of_ascii c in
  (((9 <=? n) && (n <=? 13)) || (n =? 32) || (n =? 160))%nat.

Definition is_digit (c : ascii) : bool :=
  let n := nat_of_ascii c in ((48 <=? n) && (n <=? 57))%nat.

Definition is_line_end (c : ascii) : bool :=
  let n := nat_of_ascii c in ((n =? 10) || (n =? 13))%nat.

Definition atom_matches (a : atom) (c : ascii) : bool :=
  match a with
  | Lit l => Ascii.eqb (JS.lower_ascii l) (JS.lower_ascii c)
  | OneOf cs => mem c cs
  | NoneOf cs => negb (mem c cs)
  | Space => is_space c
  | Digit => is_digit c
  | Dot => negb (is_line_end c)
  end.

(** The text of group 1 while the match proceeds. *)
Inductive capture : Type :=
| Unopened
| Opened (acc : string)
| Closed (text : string).

Definition push (c : ascii) (cap : capture) : capture :=
  match cap with
  | Opened acc => Opened (acc ++ String c EmptyString)
  | _ => cap
  end.

Definition close (cap : capture) : capture :=
  match cap with
  | Opened acc => Closed acc
  | _ => cap
  end.

(** Greedy repetition of [a], then the continuation [k]; on failure of the
    continuation one repetition is given back. *)
Fixpoint greedy (a : atom) (k : string -> capture -> option capture)
         (s : string) (cap : capture) : option capture :=
  match s with
  | String c s' =>
      if atom_matches a c
      then match greedy a k s' (push c cap) with
           | Some r => Some r
           | None => k s cap
           end
      else k s cap
  | EmptyString => k s cap
  end.

Fixpoint match_here (p : pattern) : string -> capture -> option capture :=
  match p with
  | [] => fun _ cap => Some cap
  | Open :: p' => fun s _ => match_here p' s (Opened EmptyString)
  | Close :: p' => fun s cap => match_here p' s (close cap)
  | Item a Once :: p' =>
      fun s cap =>
        match s with
        | String c s' =>
            if atom_matches a c then match_here p' s' (push c cap) else None
        | EmptyString => None
        end
  | Item a Star :: p' => greedy a (match_here p')
  | Item a Plus :: p' =>
      fun s cap =>
        match s with
        | String c s' =>
            if atom_matches a c
            then greedy a (match_here p') s' (push c cap)
            else None
        | EmptyString => None
        end
  end.

(** [pattern.exec(s)]: the first start position at which the pattern
    matches. *)
Fixpoint exec (p : pattern) (s : string) : option capture :=
  match match_here p s Unopened with
  | Some cap => Some cap
  | None =>
      match s with
      | String _ s' => exec p s'
      | EmptyString => None
      end
  end.

(** [const match = html.match(pattern); match && match[1]], when truthy. *)
Definition match1 (html : string) (p : pattern) : option string :=
  match exec p html with
  | Some (Closed text) => if JS.truthy_string text then Some text else None
  | _ => None
  end.

(** Pattern builders. *)
Local Open Scope list_scope.

Definition lit (s : string) : pattern :=
  map (fun c => Item (Lit c) Once) (list_ascii_of_string s).

Definition squote : ascii := "'"%char.
Definition quote : node := Item (OneOf [JS.dquote; squote]) Once.
Definition unquoted : node := Item (NoneOf [JS.dquote; squote]) Plus.
Definition spaces : node := Item Space Star.
Definition ch (c : ascii) : node := Item (Lit c) Once.

(** An attribute [key=Q(...)Q]: either quote character, then one or more
    characters that are not quotes (the group), then a quote. *)
Definition attribute (key : string) : pattern :=
  lit key ++ [ch "="%char; quote; Open; unquoted; Close; quote].

(** A script property [key:\s*Q(...)Q], quoted the same way. *)
Definition property (key : string) : pattern :=
  lit key ++ [ch ":"%char; spaces; quote; Open; unquoted; Close; quote].

(** A quoted property [QkeyQ:\s*Q(...)Q] for one fixed quote character
    [Q]; the group is one or more characters other than [Q]. *)
Definition quoted_property (q : ascii) (key : string) : pattern :=
  [ch q] ++ lit key
    ++ [ch q; ch ":"%char; spaces; ch q; Open; Item (NoneOf [q]) Plus; Close; ch q].

(** A call [initCaptcha\([^,]+,\s*Q(...)Q\)]. *)
Definition init_call : pattern :=
  lit "initCaptcha("
    ++ [Item (NoneOf [","%char]) Plus; ch ","%char; spaces;
        quote; Open; unquoted; Close; quote; ch ")"%char].

End Regex.

(** ** Data model *)

Record CaptchaChallenge : Type := {
  sitekey : string;
  puzzleEndpoint : option string;
  difficulty : option Z;
  lang : option string;
  startMode : option string
}.

Inductive Method : Type := puppeteer | native | fallback.

(** The payloads that the strategies store in [debugInfo]. *)
Record PuzzleData : Type := {
  data : option string;
  puzzle_difficulty : option Z
}.

Record WidgetData : Type := {
  widget_sitekey : string;
  widget_timestamp : Z;
  widget_difficulty : Z;
  widget_lang : string
}.

Inductive DebugInfo : Type :=
| HttpFallbackInfo (puzzleData : PuzzleData)
| ApiSimulationInfo (widgetData : WidgetData)
| BrowserInfo (method : string).

Definition URLSearchParams : Type := list (string * string).

Record CaptchaSolution : Type := {
  solution : string;
  timestamp : Z;
  solveTime : Z;
  method : Method;
  debugInfo : option DebugInfo
}.

Record CaptchaSolveResult : Type := {
  success : bool;
  result_solution : option CaptchaSolution;
  error : option string;
  formData : option URLSearchParams;
  result_solveTime : option Z
}.

Record EnvironmentInfo : Type := {
  isDevelopment : bool;
  isProduction : bool;
  isServerless : bool;
  platform : string;
  puppeteerAvailable : bool;
  chromeAvailable : bool
}.

Record ResourceLimits : Type := {
  maxMemory : Z;
  maxCpuUsage : Z
}.

Record SolverConfig : Type := {
  timeout : Z;
  maxRetries : Z;
  enablePuppeteer : bool;
  enableHttpFallback : bool;
  enableAntiDetection : bool;
  resourceLimits : ResourceLimits
}.

(** ** Promises and [async] functions

    A promise is observed through the time at which it settles and its
    outcome. An [async] function is run from the clock reading at which it is
    called; synchronous code takes no time on this clock. *)

Module Async.

Inductive Outcome (A : Type) : Type :=
| Fulfilled (value : A)
| Rejected (reason : JS.Thrown).
Arguments Fulfilled {A} value.
Arguments Rejected {A} reason.

(** [None]: the promise stays pending for ever. *)
Definition Promise (A : Type) : Type := option (Z * Outcome A).

Definition Async (A : Type) : Type := Z -> Promise A.

Definition ret {A} (v : A) : Async A := fun t => Some (t, Fulfilled v).

Definition throw {A} (e : JS.Thrown) : Async A := fun t => Some (t, Rejected e).

(** [const x = await m; f x] *)
Definition bind {A B} (m : Async A) (f : A -> Async B) : Async B :=
  fun t =>
    match m t with
    | None => None
    | Some (t', Fulfilled v) => f v t'
    | Some (t', Rejected e) => Some (t', Rejected e)
    end.

(** [try { m } catch (error) { handler error }] *)
Definition try_catch {A} (m : Async A) (handler : JS.Thrown -> Async A)
  : Async A :=
  fun t =>
    match m t with
    | None => None
    | Some (t', Fulfilled v) => Some (t', Fulfilled v)
    | Some (t', Rejected e) => handler e t'
    end.

(** [Date.now()] *)
Definition now : Async Z := fun t => Some (t, Fulfilled t).

(** The delay that Node gives a timer: a delay below 1 or above
    2147483647 is set to 1. *)
Definition timer_delay (ms : Z) : Z :=
  if (ms <? 1) || (2147483647 <? ms) then 1 else ms.

(** [new Promise(resolve => setTimeout(resolve, ms))] *)
Definition delay (ms : Z) : Async unit :=
  fun t => Some (t + timer_delay ms, Fulfilled tt).

(** [Promise.race([p, q])]: the promise that settles first decides; when
    both settle at the same time, the one listed first. *)
Definition race {A} (p q : Promise A) : Promise A :=
  match p, q with
  | Some (tp, op), Some (tq, oq) =>
      if tp <=? tq then Some (tp, op) else Some (tq, oq)
  | Some r, None => Some r
  | None, q => q
  end.

(** [p] is still pending at time [t]. *)
Definition pending_at {A} (p : Promise A) (t : Z) : Prop :=
  match p with
  | Some (tp, _) => t < tp
  | None => True
  end.

End Async.

Notation "'await' x <- m ; k" := (Async.bind m (fun x => k))
  (at level 10, x name, m at level 100, k at level 200,
   format "'await'  x  <-  m ;  '//' k").

(** ** The host: what the process can observe of its environment *)

Record Host : Type := {
  process_env : gmap string string;      (* process.env *)
  puppeteer_installed : bool;            (* require('puppeteer') succeeds *)
  existsSync : string -> bool            (* fs.existsSync *)
}.

(** The private static fields of the class that the profiler and the
    configuration derivation write. *)
Record Statics : Type := {
  environmentInfo : option EnvironmentInfo;
  solverConfig : option SolverConfig
}.

Definition initial_statics : Statics :=
  {| environmentInfo := None; solverConfig := None |}.

Module AngryCAPTCHA.

(** *** Environment detection and configuration *)

(** [process.env.NAME] and its truthiness. *)
Definition getenv (h : Host) (name : string) : option string :=
  process_env h !! name.

Definition env_set (h : Host) (name : string) : bool :=
  match getenv h name with
  | Some v => JS.truthy_string v
  | None => false
  end.

Definition env_is (h : Host) (name value : string) : bool :=
  match getenv h name with
  | Some v => String.eqb v value
  | None => false
  end.

(** The body of [detectEnvironment] below the cache test. *)
Definition probeEnvironment (h : Host) : EnvironmentInfo :=
  let isDevelopment := env_is h "NODE_ENV" "development" in
  let isProduction := env_is h "NODE_ENV" "production" in
  let isServerless :=
    env_set h "VERCEL" || env_set h "NETLIFY"
    || env_set h "AWS_LAMBDA_FUNCTION_NAME" || env_set h "FUNCTION_NAME"
    || env_set h "CF_PAGES" in
  let platform :=
    if env_set h "VERCEL" then "vercel"
    else if env_set h "NETLIFY" then "netlify"
    else if env_set h "AWS_LAMBDA_FUNCTION_NAME" then "aws-lambda"
    else if env_set h "CF_PAGES" then "cloudflare"
    else if isDevelopment then "development"
    else "server" in
  let chromePath : option string :=
    if env_set h "CHROME_PATH" then getenv h "CHROME_PATH"
    else if env_set h "PUPPETEER_EXECUTABLE_PATH"
         then getenv h "PUPPETEER_EXECUTABLE_PATH"
    else if String.eqb platform "vercel" then Some "/usr/bin/chromium-browser"
    else None in
  let '(puppeteerAvailable, chromeAvailable) :=
    if puppeteer_installed h
    then (true,
          match chromePath with
          | Some path => existsSync h path
          | None => negb isServerless
          end)
    else (false, false) in
  {| isDevelopment := isDevelopment;
     isProduction := isProduction;
     isServerless := isServerless;
     platform := platform;
     puppeteerAvailable := puppeteerAvailable;
     chromeAvailable := chromeAvailable |}.

Definition detectEnvironment (h : Host) (st : Statics)
  : EnvironmentInfo * Statics :=
  match environmentInfo st with
  | Some info => (info, st)
  | None =>
      let info := probeEnvironment h in
      (info, {| environmentInfo := Some info; solverConfig := solverConfig st |})
  end.

(** The object literal that [getConfig] assigns to [solverConfig]. *)
Definition deriveConfig (env : EnvironmentInfo) : SolverConfig :=
  {| timeout := if isProduction env then 20000 else 30000;
     maxRetries := if isProduction env then 2 else 3;
     enablePuppeteer :=
       puppeteerAvailable env && chromeAvailable env && negb (isServerless env);
     enableHttpFallback := true;
     enableAntiDetection := isProduction env;
     resourceLimits :=
       {| maxMemory := if isServerless env then 512 else 1024;
          maxCpuUsage := if isServerless env then 80 else 90 |} |}.

Definition getConfig (h : Host) (st : Statics) : SolverConfig * Statics :=
  match solverConfig st with
  | Some config => (config, st)
  | None =>
      let '(env, st1) := detectEnvironment h st in
      let config := deriveConfig env in
      (config, {| environmentInfo := environmentInfo st1;
                  solverConfig := Some config |})
  end.

(** *** Challenge extraction *)

Definition sitekey_patterns : list Regex.pattern :=
  [ Regex.attribute "data-sitekey";
    Regex.attribute "data-fc-sitekey";
    Regex.property "sitekey";
    Regex.property "fc-sitekey";
    Regex.quoted_property JS.dquote "sitekey";
    Regex.quoted_property Regex.squote "sitekey";
    Regex.init_call;
    (Regex.lit "window." ++ [Regex.Item Regex.Dot Regex.Star]
       ++ Regex.lit "." ++ Regex.init_call)%list ].

Definition puzzleEndpoint_patterns : list Regex.pattern :=
  [ Regex.attribute "data-puzzle-endpoint"; Regex.property "puzzleEndpoint" ].

Definition digits : Regex.node := Regex.Item Regex.Digit Regex.Plus.

Definition difficulty_patterns : list Regex.pattern :=
  [ (Regex.lit "data-difficulty="
       ++ [Regex.quote; Regex.Open; digits; Regex.Close; Regex.quote])%list;
    (Regex.lit "difficulty:"
       ++ [Regex.spaces; Regex.Open; digits; Regex.Close])%list ].

Definition lang_patterns : list Regex.pattern :=
  [ Regex.attribute "data-lang"; Regex.property "lang" ].

Definition startMode_patterns : list Regex.pattern :=
  [ Regex.attribute "data-start"; Regex.property "start" ].

(** The loop shared by the site-key search and [extractValue]: the first
    pattern whose match has a truthy group 1 decides. *)
Fixpoint extractValue (html : string) (patterns : list Regex.pattern)
  : option string :=
  match patterns with
  | [] => None
  | pattern :: rest =>
      match Regex.match1 html pattern with
      | Some value => Some value
      | None => extractValue html rest
      end
  end.

(** [parseInt] on a string that starts with its digits, as a capture of
    [\d+] does: the value of the leading decimal digits ([None] is NaN). *)
Fixpoint parse_digits (acc : Z) (s : string) : Z :=
  match s with
  | String c s' =>
      if Regex.is_digit c
      then parse_digits (10 * acc + Z.of_nat (nat_of_ascii c - 48)) s'
      else acc
  | EmptyString => acc
  end.

Definition parseInt (s : string) : option Z :=
  match s with
  | String c _ => if Regex.is_digit c then Some (parse_digits 0 s) else None
  | EmptyString => None
  end.

(** [x || undefined] on an extracted value. *)
Definition or_undefined (x : option string) : option string :=
  match x with
  | Some v => if JS.truthy_string v then Some v else None
  | None => None
  end.

Definition extractCaptchaChallenge (html : string) : option CaptchaChallenge :=
  match extractValue html sitekey_patterns with
  | None => None
  | Some sitekey =>
      let puzzleEndpoint := extractValue html puzzleEndpoint_patterns in
      let difficulty := extractValue html difficulty_patterns in
      let lang := extractValue html lang_patterns in
      let startMode := extractValue html startMode_patterns in
      Some {| sitekey := sitekey;
              puzzleEndpoint := or_undefined puzzleEndpoint;
              difficulty :=
                match or_undefined difficulty with
                | Some d => parseInt d
                | None => None
                end;
              lang := or_undefined lang;
              startMode := or_undefined startMode |}
  end.

(** *** Detection of a widget in markup *)

Definition indicators : list string :=
  [ "friendly-captcha"; "frc-captcha"; "FriendlyCaptcha"; "data-sitekey";
    "puzzle-endpoint"; "captcha-widget"; "data-fc-sitekey";
    "c-friendlycaptcha"; "initCaptcha"; "Friendly Captcha" ].

Definition containsCaptcha (html : string) : bool :=
  existsb (fun indicator =>
             JS.includes (JS.toLowerCase html) (JS.toLowerCase indicator))
          indicators.

(** *** The protocol-fallback strategy *)

(** One round of [simpleHash]: [hash = ((hash << 5) - hash) + char] and
    then [hash = hash & hash]. *)
Definition hash_step (hash : Z) (c : ascii) : Z :=
  let hash := (JS.shl hash 5 - hash) + Z.of_nat (nat_of_ascii c) in
  JS.band hash hash.

Fixpoint hash_loop (str : string) (hash : Z) : Z :=
  match str with
  | EmptyString => hash
  | String c str' => hash_loop str' (hash_step hash c)
  end.

Definition simpleHash (str : string) : string :=
  JS.toString16 (Z.abs (hash_loop str 0)).

Definition MAX_ITERATIONS : nat := Z.to_nat 10000.

(** The [for] loop of [simulateProofOfWork] with [fuel] iterations left:
    the hash it returns from, if any. [nonce] and the loop counter advance
    together. *)
Fixpoint pow_loop (data target : string) (fuel : nat) (nonce : Z)
  : option string :=
  match fuel with
  | O => None
  | S fuel' =>
      let hash := simpleHash (data ++ JS.toString nonce) in
      if JS.startsWith hash target then Some hash
      else pow_loop data target fuel' (nonce + 1)
  end.

(** How many times the body of that loop runs. *)
Fixpoint pow_iterations (data target : string) (fuel : nat) (nonce : Z)
  : nat :=
  match fuel with
  | O => O
  | S fuel' =>
      let hash := simpleHash (data ++ JS.toString nonce) in
      if JS.startsWith hash target then 1%nat
      else S (pow_iterations data target fuel' (nonce + 1))
  end.

(** [now] is the reading of [Date.now()] in the fallback line. *)
Definition simulateProofOfWork (data : string) (difficulty : Z) (now : Z)
  : JS.Thrown + string :=
  match JS.repeat0 (difficulty / 1000) with
  | inl e => inl e
  | inr target =>
      match pow_loop data target MAX_ITERATIONS 0 with
      | Some hash => inr hash
      | None => inr (simpleHash (data ++ JS.toString now))
      end
  end.

(** The token template of [solvePuzzleHttp] and [generateMockSolution]. *)
Definition token (prefix workValue timestamp : string) : string :=
  prefix ++ "." ++ workValue ++ "." ++ timestamp.

(** [solvePuzzleHttp]: [null] when the puzzle has no data or when the
    body throws. *)
Definition solvePuzzleHttp (puzzleData : option PuzzleData) (now : Z)
  : option string :=
  match puzzleData with
  | None => None
  | Some puzzle =>
      match data puzzle with
      | None => None
      | Some d =>
          if JS.truthy_string d then
            let timestamp := now in
            let difficulty := JS.or_number (puzzle_difficulty puzzle) 1000 in
            let prefix := JS.substring0 16 d in
            match simulateProofOfWork d difficulty now with
            | inl _ => None
            | inr workValue =>
                Some (token prefix workValue (JS.toString timestamp))
            end
          else None
      end
  end.

(** The form fields that every strategy attaches to a solution. *)
Definition createFormData (solution sitekey : string) : URLSearchParams :=
  [ ("frc-captcha-solution", solution); ("frc-captcha-sitekey", sitekey) ].

(** The network client. *)
Record Response : Type := {
  ok : bool;
  status : Z;
  json : Async.Async (option PuzzleData)
}.

Definition failure (message : string) (elapsed : Z) : CaptchaSolveResult :=
  {| success := false;
     result_solution := None;
     error := Some message;
     formData := None;
     result_solveTime := Some elapsed |}.

Definition solveCaptchaWithHttp (fetch : string -> Async.Async Response)
           (challenge : CaptchaChallenge) : Async.Async CaptchaSolveResult :=
  fun startTime =>
    Async.try_catch
      (let puzzleUrl :=
         JS.or_string (puzzleEndpoint challenge)
           ("https://api.friendlycaptcha.com/api/v1/puzzle?sitekey="
              ++ sitekey challenge) in
       await puzzleResponse <- fetch puzzleUrl;
       if negb (ok puzzleResponse)
       then Async.throw
              (JS.JsError ("Failed to fetch puzzle: "
                             ++ JS.toString (status puzzleResponse)))
       else
         await puzzleData <- json puzzleResponse;
         await t <- Async.now;
         match solvePuzzleHttp puzzleData t with
         | Some solution =>
             if JS.truthy_string solution then
               Async.ret
                 {| success := true;
                    result_solution :=
                      Some {| solution := solution;
                              timestamp := t;
                              solveTime := t - startTime;
                              method := fallback;
                              debugInfo :=
                                option_map HttpFallbackInfo puzzleData |};
                    error := None;
                    formData :=
                      Some (createFormData solution (sitekey challenge));
                    result_solveTime := Some (t - startTime) |}
             else Async.throw (JS.JsError "HTTP solve failed")
         | None => Async.throw (JS.JsError "HTTP solve failed")
         end)
      (fun error =>
         await t <- Async.now;
         Async.ret (failure (JS.message_or "HTTP solve failed" error)
                            (t - startTime)))
      startTime.

(** *** The simulation strategy *)

Definition stringify (widgetData : WidgetData) : string :=
  "{" ++ JS.json_string "sitekey" ++ ":"
      ++ JS.json_string (widget_sitekey widgetData)
  ++ "," ++ JS.json_string "timestamp" ++ ":"
      ++ JS.toString (widget_timestamp widgetData)
  ++ "," ++ JS.json_string "difficulty" ++ ":"
      ++ JS.toString (widget_difficulty widgetData)
  ++ "," ++ JS.json_string "lang" ++ ":"
      ++ JS.json_string (widget_lang widgetData)
  ++ "}".

Definition generateMockSolution (widgetData : WidgetData) (now : Z) : string :=
  let timestamp := JS.toString now in
  let sitekey := JS.substring0 16 (widget_sitekey widgetData) in
  let hash := simpleHash (stringify widgetData) in
  token sitekey hash timestamp.

Definition solveCaptchaWithApiSimulation (challenge : CaptchaChallenge)
  : Async.Async CaptchaSolveResult :=
  fun startTime =>
    Async.try_catch
      (let widgetData :=
         {| widget_sitekey := sitekey challenge;
            widget_timestamp := startTime;
            widget_difficulty := JS.or_number (difficulty challenge) 1;
            widget_lang := JS.or_string (lang challenge) "en" |} in
       await _ <- Async.delay 2000;
       await t <- Async.now;
       let solution := generateMockSolution widgetData t in
       if JS.truthy_string solution then
         Async.ret
           {| success := true;
              result_solution :=
                Some {| solution := solution;
                        timestamp := t;
                        solveTime := t - startTime;
                        method := fallback;
                        debugInfo := Some (ApiSimulationInfo widgetData) |};
              error := None;
              formData := Some (createFormData solution (sitekey challenge));
              result_solveTime := Some (t - startTime) |}
       else Async.throw (JS.JsError "API simulation failed"))
      (fun error =>
         await t <- Async.now;
         Async.ret (failure (JS.message_or "API simulation failed" error)
                            (t - startTime)))
      startTime.

(** *** Racing an attempt against the time budget *)

(** [createTimeout(ms)]: never fulfils; rejects when its timer fires. *)
Definition timeout_message (ms : Z) : string :=
  "Timeout after " ++ JS.toString ms ++ "ms".

Definition createTimeout {A} (ms : Z) : Async.Async A :=
  fun t => Some (t + Async.timer_delay ms, Async.Rejected (JS.JsError (timeout_message ms))).

(** [Promise.race([attempt(), this.createTimeout(ms)])] *)
Definition raced {A} (attempt : Async.Async A) (ms : Z) : Async.Async A :=
  fun t => Async.race (attempt t) (createTimeout ms t).

(** *** The browser-automation strategy

    The rendering engine is an external collaborator: launching it (or
    handing out the browser that is already connected), opening, configuring
    and closing a page, and the three page-driving sub-strategies are given
    by the engine. *)

Record SubResult : Type := {
  sub_success : bool;
  sub_solution : string;
  sub_formData : option URLSearchParams;
  sub_debugInfo : option DebugInfo
}.

Record Engine : Type := {
  launch : Async.Async unit;
  newPage : Async.Async unit;
  configurePage : Async.Async unit;
  solveCaptchaWithDirectWidget : CaptchaChallenge -> Async.Async (option SubResult);
  solveCaptchaWithIframe : CaptchaChallenge -> Async.Async (option SubResult);
  solveCaptchaWithManualIntegration : CaptchaChallenge -> Async.Async (option SubResult);
  closePage : Async.Async unit
}.

Definition SOLVE_TIMEOUT : Z := 30000.

Definition initBrowser (engine : Engine) (config : SolverConfig)
  : Async.Async unit :=
  if negb (enablePuppeteer config)
  then Async.throw (JS.JsError "Puppeteer not available in current environment")
  else launch engine.

(** The loop over [puppeteerStrategies] and the [throw] that follows it. *)
Fixpoint puppeteer_loop (startTime : Z)
         (puppeteerStrategies : list (Async.Async (option SubResult)))
         (lastError : string) : Async.Async CaptchaSolveResult :=
  fun t =>
    match puppeteerStrategies with
    | [] =>
        Async.throw
          (JS.JsError ("All Puppeteer strategies failed. Last error: " ++ lastError)) t
    | attempt :: rest =>
        match raced attempt SOLVE_TIMEOUT t with
        | None => None
        | Some (t', Async.Fulfilled (Some result)) =>
            if sub_success result then
              let solveTime := t' - startTime in
              Some (t', Async.Fulfilled
                {| success := true;
                   result_solution :=
                     Some {| solution := sub_solution result;
                             timestamp := t';
                             solveTime := solveTime;
                             method := puppeteer;
                             debugInfo := sub_debugInfo result |};
                   error := None;
                   formData := sub_formData result;
                   result_solveTime := Some solveTime |})
            else puppeteer_loop startTime rest lastError t'
        | Some (t', Async.Fulfilled None) =>
            puppeteer_loop startTime rest lastError t'
        | Some (t', Async.Rejected error) =>
            puppeteer_loop startTime rest (JS.message_or "Unknown error" error) t'
        end
    end.

Definition solveCaptchaWithPuppeteer (engine : Engine) (config : SolverConfig)
           (challenge : CaptchaChallenge) : Async.Async CaptchaSolveResult :=
  fun startTime =>
    let on_error (error : JS.Thrown) : Async.Async CaptchaSolveResult :=
      await t <- Async.now;
      Async.ret (failure (JS.message_or "Unknown error" error) (t - startTime)) in
    match initBrowser engine config startTime with
    | None => None
    | Some (t1, Async.Rejected error) => on_error error t1
    | Some (t1, Async.Fulfilled _) =>
        match newPage engine t1 with
        | None => None
        | Some (t2, Async.Rejected error) => on_error error t2
        | Some (t2, Async.Fulfilled _) =>
            (* from here on [page] is set and [finally] closes it *)
            (await result <-
               Async.try_catch
                 (await _ <- configurePage engine;
                  puppeteer_loop startTime
                    [ solveCaptchaWithDirectWidget engine challenge;
                      solveCaptchaWithIframe engine challenge;
                      solveCaptchaWithManualIntegration engine challenge ]
                    EmptyString)
                 on_error;
             await _ <- Async.try_catch (closePage engine) (fun _ => Async.ret tt);
             Async.ret result) t2
        end
    end.

(** *** The cascade *)

Record World : Type := {
  host : Host;
  fetch : string -> Async.Async Response;
  engine : Engine
}.

Inductive StrategyName : Type := Puppeteer | Http | ApiSimulation.

(** Which closures [solveCaptcha] pushes on [strategies], in order. *)
Definition strategy_names (config : SolverConfig) : list StrategyName :=
  ((if enablePuppeteer config then [Puppeteer] else [])
     ++ (if enableHttpFallback config then [Http; ApiSimulation] else []))%list.

Definition Strategy : Type := Async.Async CaptchaSolveResult.

Definition strategy (w : World) (config : SolverConfig)
           (challenge : CaptchaChallenge) (name : StrategyName) : Strategy :=
  match name with
  | Puppeteer => solveCaptchaWithPuppeteer (engine w) config challenge
  | Http => solveCaptchaWithHttp (fetch w) challenge
  | ApiSimulation => solveCaptchaWithApiSimulation challenge
  end.

(** The lines that [solveCaptcha] writes to the console. *)
Inductive LogLine : Type :=
| Starting (platform : string)
| Trying (i n : nat)                  (* Trying strategy i/n... *)
| Solved (solveTime : Z) (i : nat)    (* CAPTCHA solved successfully in ..ms with strategy i *)
| Failed (i : nat) (lastError : string) (* Strategy i failed: lastError *)
| SolvingFailed (errorMessage : string).

(** What a call has produced when its promise fulfils. *)
Record Run : Type := {
  finished : Z;
  result : CaptchaSolveResult;
  console : list LogLine
}.

Definition with_solveTime (r : CaptchaSolveResult) (solveTime : Z)
  : CaptchaSolveResult :=
  {| success := success r;
     result_solution := result_solution r;
     error := error r;
     formData := formData r;
     result_solveTime := Some solveTime |}.

Definition all_failed_message (lastError : string) : string :=
  "All strategies failed. Last error: " ++ lastError.

(** The [for] loop of [solveCaptcha] from index [i] on, and the code after
    it. [rest] holds [strategies[i..]], [n] is [strategies.length], [t] the
    clock and [log] the console so far. *)
Fixpoint cascade (timeout startTime : Z) (n : nat) (i : nat)
         (rest : list Strategy) (lastError : string)
         (t : Z) (log : list LogLine) : option Run :=
  match rest with
  | [] =>
      let errorMessage := all_failed_message lastError in
      Some {| finished := t;
              result := failure errorMessage (t - startTime);
              console := (log ++ [SolvingFailed errorMessage])%list |}
  | attempt :: rest' =>
      let log := (log ++ [Trying (i + 1) n])%list in
      match raced attempt timeout t with
      | None => None
      | Some (t', Async.Fulfilled result) =>
          if success result then
            let solveTime := t' - startTime in
            Some {| finished := t';
                    result := with_solveTime result solveTime;
                    console := (log ++ [Solved solveTime (i + 1)])%list |}
          else cascade timeout startTime n (S i) rest' lastError t' log
      | Some (t', Async.Rejected error) =>
          let lastError := JS.message_or "Unknown error" error in
          cascade timeout startTime n (S i) rest' lastError t'
                  (log ++ [Failed (i + 1) lastError])%list
      end
  end.

(** [solveCaptcha] once [config] and [env] are read. *)
Definition solveCaptchaWith (w : World) (config : SolverConfig)
           (env : EnvironmentInfo) (challenge : CaptchaChallenge)
           (startTime : Z) : option Run :=
  let strategies := map (strategy w config challenge) (strategy_names config) in
  cascade (timeout config) startTime (length strategies) 0 strategies
          EmptyString startTime [Starting (platform env)].

Definition solveCaptcha (w : World) (challenge : CaptchaChallenge)
           (st : Statics) (startTime : Z) : option (Run * Statics) :=
  let '(config, st1) := getConfig (host w) st in
  let '(env, st2) := detectEnvironment (host w) st1 in
  match solveCaptchaWith w config env challenge startTime with
  | Some run => Some (run, st2)
  | None => None
  end.

End AngryCAPTCHA.

(** ** Vocabulary of the properties *)

(** The statics that calls of the library can produce, starting from a fresh
    process; the host may change between calls. *)
Inductive reachable : Statics -> Prop :=
| reachable_initial : reachable initial_statics
| reachable_detect h st :
    reachable st -> reachable (snd (AngryCAPTCHA.detectEnvironment h st))
| reachable_config h st :
    reachable st -> reachable (snd (AngryCAPTCHA.getConfig h st)).

(** A cached configuration, if any, enables the HTTP fallback. *)
Definition fallback_enabled (st : Statics) : Prop :=
  match solverConfig st with
  | Some config => enableHttpFallback config = true
  | None => True
  end.

(** [markup] contains [indicator] up to the case of letters. *)
Definition contains_ignoring_case (markup indicator : string) : Prop :=
  exists before found after,
    markup = before ++ found ++ after
    /\ JS.toLowerCase found = JS.toLowerCase indicator.

(** No pattern of the list matches; [value] is what the first matching
    pattern of the list captures. *)
Definition no_match (html : string) (patterns : list Regex.pattern) : Prop :=
  Forall (fun p => Regex.match1 html p = None) patterns.

Definition first_match (html : string) (patterns : list Regex.pattern)
           (value : string) : Prop :=
  exists earlier p later,
    patterns = (earlier ++ p :: later)%list
    /\ no_match html earlier
    /\ Regex.match1 html p = Some value.

(** An optional field against its rule list. *)
Definition resolved (html : string) (patterns : list Regex.pattern)
           (field : option string) : Prop :=
  match field with
  | Some value => first_match html patterns value
  | None => no_match html patterns
  end.

(** What group 1 holds when it is opened on [\d+]: a text that starts with
    a digit. *)
Definition starts_with_digit (s : string) : bool :=
  match s with
  | String c _ => Regex.is_digit c
  | EmptyString => false
  end.

Definition digit_headed (cap : Regex.capture) : Prop :=
  match cap with
  | Regex.Opened acc | Regex.Closed acc => starts_with_digit acc = true
  | Regex.Unopened => False
  end.

Definition no_open (p : Regex.pattern) : bool :=
  forallb (fun n => match n with Regex.Open => false | _ => true end) p.

(** The markup [<div data-sitekey=QABC123Q data-lang=QenQ>], where [Q] is
    the double quote. *)
Definition sample_markup : string :=
  let Q := String JS.dquote EmptyString in
  "<div data-sitekey=" ++ Q ++ "ABC123" ++ Q ++ " data-lang=" ++ Q ++ "en" ++ Q ++ ">".

(** The attempt of [s] started at clock [t] under the budget [ms] fails, at
    the clock returned: it is rejected, by the strategy or by the timer, or
    it fulfils with an unsuccessful result. *)
Definition attempt_fails (ms : Z) (s : AngryCAPTCHA.Strategy) (t : Z)
  : option Z :=
  match AngryCAPTCHA.raced s ms t with
  | Some (t', Async.Fulfilled r) => if success r then None else Some t'
  | Some (t', Async.Rejected _) => Some t'
  | None => None
  end.

(** The strategies of the list, attempted one after the other from clock
    [t], all fail; the clock after the last of them. *)
Fixpoint all_fail (ms : Z) (ss : list AngryCAPTCHA.Strategy) (t : Z)
  : option Z :=
  match ss with
  | [] => Some t
  | s :: ss' =>
      match attempt_fails ms s t with
      | Some t' => all_fail ms ss' t'
      | None => None
      end
  end.

(** The indices of the strategies that a console shows as invoked. *)
Definition tried (log : list AngryCAPTCHA.LogLine) : list nat :=
  flat_map (fun line => match line with
                        | AngryCAPTCHA.Trying i _ => [i]
                        | _ => []
                        end) log.

(** Collaborators and statics of the examples. *)
Definition never {A : Type} : Async.Async A := fun _ => None.

Definition quiet_host : Host :=
  {| process_env := ∅; puppeteer_installed := false; existsSync := fun _ => false |}.

Definition idle_engine : AngryCAPTCHA.Engine :=
  {| AngryCAPTCHA.launch := never;
     AngryCAPTCHA.newPage := never;
     AngryCAPTCHA.configurePage := never;
     AngryCAPTCHA.solveCaptchaWithDirectWidget := fun _ => never;
     AngryCAPTCHA.solveCaptchaWithIframe := fun _ => never;
     AngryCAPTCHA.solveCaptchaWithManualIntegration := fun _ => never;
     AngryCAPTCHA.closePage := never |}.

(** No network: every request is rejected after 5 ms. *)
Definition offline_world : AngryCAPTCHA.World :=
  {| AngryCAPTCHA.host := quiet_host;
     AngryCAPTCHA.fetch :=
       fun _ t => Some (t + 5, Async.Rejected (JS.JsError "fetch failed"));
     AngryCAPTCHA.engine := idle_engine |}.

Definition sample_challenge : CaptchaChallenge :=
  {| sitekey := "ABC123";
     puzzleEndpoint := None;
     difficulty := None;
     lang := Some "en";
     startMode := None |}.

(** The invariant of a solve result. *)
Definition exactly_one (r : CaptchaSolveResult) : Prop :=
  (is_Some (result_solution r) <-> success r = true)
  /\ (is_Some (error r) <-> success r = false).

(** A strategy whose results satisfy the invariant. *)
Definition well_behaved (s : AngryCAPTCHA.Strategy) : Prop :=
  forall t t' r, s t = Some (t', Async.Fulfilled r) -> exactly_one r.

(** The polynomial of the code units in base 31, without wrap-around:
    [acc * 31^n + c1 * 31^(n-1) + ... + cn]. *)
Fixpoint polynomial31 (str : string) (acc : Z) : Z :=
  match str with
  | EmptyString => acc
  | String c str' => polynomial31 str' (31 * acc + Z.of_nat (nat_of_ascii c))
  end.

(** A strategy whose promise is never rejected. *)
Definition never_rejects (s : AngryCAPTCHA.Strategy) : Prop :=
  forall t t' e, s t <> Some (t', Async.Rejected e).

(** A strategy that, attempted at any time under the budget [ms], fulfils
    with a successful result before the timer fires. *)
Definition always_wins (ms : Z) (s : AngryCAPTCHA.Strategy) : Prop :=
  forall t, exists t' r,
      AngryCAPTCHA.raced s ms t = Some (t', Async.Fulfilled r)
      /\ success r = true.

(** A cached configuration is the one derived from the cached profile. *)
Definition coherent (st : Statics) : Prop :=
  match solverConfig st with
  | Some config =>
      exists env,
        environmentInfo st = Some env
        /\ config = AngryCAPTCHA.deriveConfig env
  | None => True
  end.

(** The variables that mark a serverless platform, and the executable that
    the environment names for the browser. *)
Definition serverless_variables : list string :=
  [ "VERCEL"; "NETLIFY"; "AWS_LAMBDA_FUNCTION_NAME"; "FUNCTION_NAME"; "CF_PAGES" ].

Definition configured_chrome (h : Host) : option string :=
  if AngryCAPTCHA.env_set h "CHROME_PATH"
  then AngryCAPTCHA.getenv h "CHROME_PATH"
  else if AngryCAPTCHA.env_set h "PUPPETEER_EXECUTABLE_PATH"
       then AngryCAPTCHA.getenv h "PUPPETEER_EXECUTABLE_PATH"
  else None.

(** ** Launching the browser: the options of [initRegularBrowser] *)

Module Launch.

Definition baseArgs : list string :=
  [ "--no-sandbox";
    "--disable-setuid-sandbox";
    "--disable-dev-shm-usage";
    "--disable-accelerated-2d-canvas";
    "--no-first-run";
    "--no-zygote";
    "--single-process";
    "--disable-gpu";
    "--disable-web-security";
    "--allow-running-insecure-content";
    "--disable-features=VizDisplayCompositor" ].

(** Pushed when [env.isProduction]. *)
Definition productionArgs : list string :=
  [ "--memory-pressure-off";
    "--disable-background-timer-throttling";
    "--disable-backgrounding-occluded-windows";
    "--disable-renderer-backgrounding";
    "--disable-ipc-flooding-protection";
    "--disable-hang-monitor";
    "--disable-prompt-on-repost";
    "--disable-component-extensions-with-background-pages";
    "--disable-background-networking";
    "--disable-breakpad";
    "--disable-client-side-phishing-detection";
    "--disable-default-apps";
    "--disable-extensions";
    "--disable-sync";
    "--disable-translate";
    "--metrics-recording-only";
    "--no-default-browser-check";
    "--safebrowsing-disable-auto-update";
    "--disable-logging";
    "--silent" ].

(** Pushed when [config.enableAntiDetection]. *)
Definition antiDetectionArgs : list string :=
  [ "--disable-blink-features=AutomationControlled";
    "--disable-features=VizDisplayCompositor";
    "--user-agent=Mozilla/5.0 (Windows NT 10.0; Win64; x64) AppleWebKit/537.36 (KHTML, like Gecko) Chrome/120.0.0.0 Safari/537.36" ].

Record LaunchOptions : Type := {
  headless : bool;
  args : list string;
  launch_timeout : Z;
  ignoreHTTPSErrors : bool;
  defaultViewport : Z * Z;
  executablePath : option string
}.

(** [launchOptions] as it stands when it is handed to [puppeteer.launch]. *)
Definition launchOptions (h : Host) (env : EnvironmentInfo)
           (config : SolverConfig) : LaunchOptions :=
  {| headless := true;
     args :=
       (baseArgs
          ++ (if isProduction env then productionArgs else [])
          ++ (if enableAntiDetection config then antiDetectionArgs else []))%list;
     launch_timeout := if isProduction env then 15000 else 10000;
     ignoreHTTPSErrors := true;
     defaultViewport := (1920, 1080);
     executablePath :=
       if String.eqb (platform env) "vercel"
       then Some "/usr/bin/chromium-browser"
       else if AngryCAPTCHA.env_set h "CHROME_PATH"
               || AngryCAPTCHA.env_set h "PUPPETEER_EXECUTABLE_PATH"
            then if AngryCAPTCHA.env_set h "CHROME_PATH"
                 then AngryCAPTCHA.getenv h "CHROME_PATH"
                 else AngryCAPTCHA.getenv h "PUPPETEER_EXECUTABLE_PATH"
            else None |}.

End Launch.

(** The host on which the library enables the browser strategy: puppeteer
    is installed, no serverless variable is set, and the executable that the
    environment names, if any, exists. *)
Definition browser_usable (h : Host) : Prop :=
  puppeteer_installed h = true
  /\ Forall (fun name => AngryCAPTCHA.env_set h name = false) serverless_variables
  /\ match configured_chrome h with
     | Some path => existsSync h path = true
     | None => True
     end.

(** The address at which the HTTP fallback asks for the puzzle. *)
Definition puzzle_url (challenge : CaptchaChallenge) : string :=
  JS.or_string (puzzleEndpoint challenge)
    ("https://api.friendlycaptcha.com/api/v1/puzzle?sitekey=" ++ sitekey challenge).

(** A network that answers every puzzle request after 40 ms with the same
    puzzle. *)
Definition sample_puzzle : PuzzleData :=
  {| data := Some "abcdefghijklmnopqrstuvwxyz"; puzzle_difficulty := Some 500 |}.

Definition puzzle_fetch : string -> Async.Async AngryCAPTCHA.Response :=
  fun _ t =>
    Some (t + 40,
          Async.Fulfilled
            {| AngryCAPTCHA.ok := true;
               AngryCAPTCHA.status := 200;
               AngryCAPTCHA.json := fun t1 => Some (t1 + 2, Async.Fulfilled (Some sample_puzzle)) |}).

(** The site-key patterns that spell an indicator of [containsCaptcha]: the
    two attribute patterns and the two call patterns (the first, second,
    seventh and eighth of the list). *)
Definition indicator_patterns : list Regex.pattern :=
  [ Regex.attribute "data-sitekey";
    Regex.attribute "data-fc-sitekey";
    Regex.init_call;
    (Regex.lit "window." ++ [Regex.Item Regex.Dot Regex.Star]
       ++ Regex.lit "." ++ Regex.init_call)%list ].

(** ** The pages rendered for the widget *)

Module Pages.

Definition nl : string := String (ascii_of_nat 10) EmptyString.
Definition Q : string := String JS.dquote EmptyString.

Definition CAPTCHA_CDN_URL : string :=
  "https://cdn.jsdelivr.net/npm/friendly-challenge@0.9.12/widget.min.js".

(** The attribute [name=QvalueQ], as the templates write it. *)
Definition attr (name value : string) : string :=
  name ++ "=" ++ Q ++ value ++ Q.

(** The lines of the template of [createCaptchaTestPage] before the
    site-key attribute, up to the indentation in front of it. *)
Definition test_page_head : string :=
  String.concat nl
    [ EmptyString;
      "<!DOCTYPE html>";
      "<html>";
      "<head>";
      "    <meta charset=" ++ Q ++ "UTF-8" ++ Q ++ ">";
      "    <title>CAPTCHA Test</title>";
      "    <script src=" ++ Q ++ CAPTCHA_CDN_URL ++ Q ++ "></script>";
      "    <style>";
      "        .c-friendlycaptcha {";
      "            width: 312px;";
      "            height: 68px;";
      "            border: 1px solid #ddd;";
      "            border-radius: 4px;";
      "            background-color: #f8f9fa;";
      "            padding: 16px;";
      "            display: flex;";
      "            align-items: center;";
      "            justify-content: center;";
      "            font-family: Arial, sans-serif;";
      "            font-size: 14px;";
      "            color: #333;";
      "        }";
      "    </style>";
      "</head>";
      "<body>";
      "    <form>";
      "        <div class=" ++ Q ++ "frc-captcha c-friendlycaptcha" ++ Q ++ " ";
      "             " ].

(** The lines after the last attribute. *)
Definition test_page_tail : string :=
  String.concat nl
    [ ">";
      "            Verification loading...";
      "        </div>";
      "        <input type=" ++ Q ++ "hidden" ++ Q ++ " name=" ++ Q ++ "frc-captcha-solution" ++ Q ++ " value=" ++ Q ++ Q ++ ">";
      "    </form>";
      "</body>";
      "</html>" ].

Definition indent : string := "             ".

Definition createCaptchaTestPage (challenge : CaptchaChallenge) : string :=
  test_page_head
    ++ attr "data-sitekey" (sitekey challenge)
    ++ nl ++ indent
    ++ match puzzleEndpoint challenge with
       | Some endpoint =>
           if JS.truthy_string endpoint
           then attr "data-puzzle-endpoint" endpoint else EmptyString
       | None => EmptyString
       end
    ++ nl ++ indent
    ++ match difficulty challenge with
       | Some d =>
           if JS.truthy_number d
           then attr "data-difficulty" (JS.toString d) else EmptyString
       | None => EmptyString
       end
    ++ nl ++ indent
    ++ match lang challenge with
       | Some l => if JS.truthy_string l then attr "data-lang" l else EmptyString
       | None => EmptyString
       end
    ++ nl ++ indent
    ++ match startMode challenge with
       | Some mode =>
           if JS.truthy_string mode
           then attr "data-start" mode else attr "data-start" "auto"
       | None => attr "data-start" "auto"
       end
    ++ test_page_tail.

(** [content.replace(/Q/g, '&quot;')], for the double quote [Q]. *)
Fixpoint escape_quotes (content : string) : string :=
  match content with
  | EmptyString => EmptyString
  | String c content' =>
      if Ascii.eqb c JS.dquote
      then "&quot;" ++ escape_quotes content'
      else String c (escape_quotes content')
  end.

Definition createIframeCaptchaPage (challenge : CaptchaChallenge) : string :=
  let iframeContent := createCaptchaTestPage challenge in
  String.concat nl
    [ EmptyString;
      "<!DOCTYPE html>";
      "<html>";
      "<head>";
      "    <meta charset=" ++ Q ++ "UTF-8" ++ Q ++ ">";
      "    <title>CAPTCHA Iframe Test</title>";
      "</head>";
      "<body>";
      "    <iframe name=" ++ Q ++ "captcha-frame" ++ Q ++ " srcdoc=" ++ Q ++ escape_quotes iframeContent ++ Q ++ " ";
      "            width=" ++ Q ++ "100%" ++ Q ++ " height=" ++ Q ++ "300" ++ Q ++ " frameborder=" ++ Q ++ "0" ++ Q ++ "></iframe>";
      "</body>";
      "</html>" ].

End Pages.

(** ** The simplified entry points *)

Module SimpleAngryCAPTCHA.

(** The page that [fetch(url)] answers with. *)
Record PageResponse : Type := {
  page_ok : bool;
  page_status : Z;
  text : Async.Async string
}.

(** The object [{ success: false, error }] of the [catch] clauses. *)
Definition refusal (message : string) : CaptchaSolveResult :=
  {| success := false;
     result_solution := None;
     error := Some message;
     formData := None;
     result_solveTime := None |}.

(** [return await AngryCAPTCHA.solveCaptcha(challenge)]: the time of the
    return, the result and the statics. *)
Definition solve (w : AngryCAPTCHA.World) (challenge : CaptchaChallenge)
           (st : Statics) (t : Z) : option (Z * CaptchaSolveResult * Statics) :=
  match AngryCAPTCHA.solveCaptcha w challenge st t with
  | Some (run, st') => Some (AngryCAPTCHA.finished run, AngryCAPTCHA.result run, st')
  | None => None
  end.

Definition solveFromHtml (w : AngryCAPTCHA.World) (html : string)
           (st : Statics) (t : Z) : option (Z * CaptchaSolveResult * Statics) :=
  if negb (AngryCAPTCHA.containsCaptcha html)
  then Some (t, refusal "No FriendlyCaptcha found in the HTML content", st)
  else match AngryCAPTCHA.extractCaptchaChallenge html with
       | None => Some (t, refusal "Failed to extract CAPTCHA challenge", st)
       | Some challenge => solve w challenge st t
       end.

Definition solveFromUrl (fetchPage : string -> Async.Async PageResponse)
           (w : AngryCAPTCHA.World) (url : string)
           (st : Statics) (t : Z) : option (Z * CaptchaSolveResult * Statics) :=
  match fetchPage url t with
  | None => None
  | Some (t1, Async.Rejected error) =>
      Some (t1, refusal (JS.message_or "Unknown error" error), st)
  | Some (t1, Async.Fulfilled response) =>
      if negb (page_ok response)
      then Some (t1, refusal ("Failed to fetch page: "
                                ++ JS.toString (page_status response)), st)
      else
        match text response t1 with
        | None => None
        | Some (t2, Async.Rejected error) =>
            Some (t2, refusal (JS.message_or "Unknown error" error), st)
        | Some (t2, Async.Fulfilled html) =>
            if negb (AngryCAPTCHA.containsCaptcha html)
            then Some (t2, refusal "No FriendlyCaptcha found on the page", st)
            else match AngryCAPTCHA.extractCaptchaChallenge html with
                 | None =>
                     Some (t2, refusal "Failed to extract CAPTCHA challenge", st)
                 | Some challenge => solve w challenge st t2
                 end
        end
  end.

Definition solveWithSitekey (w : AngryCAPTCHA.World) (sitekey : string)
           (puzzleEndpoint : option string) (st : Statics) (t : Z)
  : option (Z * CaptchaSolveResult * Statics) :=
  solve w {| sitekey := sitekey;
             puzzleEndpoint := puzzleEndpoint;
             difficulty := None;
             lang := None;
             startMode := None |} st t.

(** [params.get(name)]: the first value under [name]. *)
Fixpoint get (name : string) (params : URLSearchParams) : option string :=
  match params with
  | [] => None
  | (key, value) :: rest => if String.eqb key name then Some value else get name rest
  end.

(** The body that [submitForm] posts, or the error it throws. The
    additional fields come in the order of [Object.entries]. *)
Definition formBody (solveResult : CaptchaSolveResult)
           (additionalFormData : option (list (string * string)))
  : JS.Thrown + URLSearchParams :=
  match success solveResult, result_solution solveResult with
  | true, Some sol =>
      inr ([ ("frc-captcha-solution", solution sol);
             ("frc-captcha-sitekey",
              JS.or_string match formData solveResult with
                           | Some fields => get "frc-captcha-sitekey" fields
                           | None => None
                           end EmptyString) ]
             ++ match additionalFormData with
                | Some fields => fields
                | None => []
                end)%list
  | _, _ =>
      inl (JS.JsError "Cannot submit form: CAPTCHA solve was not successful")
  end.

Definition submitForm {A : Type}
           (post : string -> URLSearchParams -> Async.Async A)
           (formUrl : string) (solveResult : CaptchaSolveResult)
           (additionalFormData : option (list (string * string)))
  : Async.Async A :=
  match formBody solveResult additionalFormData with
  | inl error => Async.throw error
  | inr body => post formUrl body
  end.

End SimpleAngryCAPTCHA.

(** A text without quote characters, which an attribute of the templates
    holds unchanged. *)
Fixpoint unquoted_text (s : string) : bool :=
  match s with
  | EmptyString => true
  | String c s' =>
      negb (Regex.mem c [JS.dquote; Regex.squote]) && unquoted_text s'
  end.

(** The literal [key] fails against [s] on a character that [s] holds; it
    does so at every position of [s]. *)
Fixpoint lit_rejects (key s : string) : bool :=
  match key, s with
  | String c key', String d s' =>
      if Ascii.eqb (JS.lower_ascii c) (JS.lower_ascii d)
      then lit_rejects key' s'
      else true
  | _, _ => false
  end.

Fixpoint all_reject (key s : string) : bool :=
  match s with
  | EmptyString => true
  | String _ s' => lit_rejects key s && all_reject key s'
  end.

(** How many double quotes a text holds. *)
Fixpoint count_quotes (s : string) : nat :=
  match s with
  | EmptyString => O
  | String c s' => ((if Ascii.eqb c JS.dquote then 1 else 0) + count_quotes s')%nat
  end.

(** A page server that answers after 30 ms with the given markup, which
    arrives 5 ms later. *)
Definition page_server (html : string)
  : string -> Async.Async SimpleAngryCAPTCHA.PageResponse :=
  fun _ t =>
    Some (t + 30,
          Async.Fulfilled
            {| SimpleAngryCAPTCHA.page_ok := true;
               SimpleAngryCAPTCHA.page_status := 200;
               SimpleAngryCAPTCHA.text := fun t1 => Some (t1 + 5, Async.Fulfilled html) |}).

(** A result whose solution, when it is of method fallback, comes with the
    form fields of that solution and of the site key of [challenge]. *)
Definition carries_form (challenge : CaptchaChallenge) (r : CaptchaSolveResult)
  : Prop :=
  forall sol,
    result_solution r = Some sol ->
    method sol = fallback ->
    formData r
    = Some (AngryCAPTCHA.createFormData (solution sol) (sitekey challenge)).



(** ** Environment profile and configuration *)

Section Environment.

Import AngryCAPTCHA.

Lemma detectEnvironment_caches h st :
  environmentInfo (snd (detectEnvironment h st))
  = Some (fst (detectEnvironment h st)).
Proof.
  unfold detectEnvironment.
  destruct (environmentInfo st) as [info|] eqn:E; simpl; auto.
Qed.

Lemma detectEnvironment_cached h st info :
  environmentInfo st = Some info -> detectEnvironment h st = (info, st).
Proof. intros E. unfold detectEnvironment. now rewrite E. Qed.

Lemma detectEnvironment_keeps_config h st :
  solverConfig (snd (detectEnvironment h st)) = solverConfig st.
Proof.
  unfold detectEnvironment. destruct (environmentInfo st); reflexivity.
Qed.

(** C9. Calling the profiler a second time returns the profile of the first
    call and leaves the cache as it is, whatever the host has become in
    between: the second call reads nothing of the host. *)
Theorem detectEnvironment_memoized (h1 h2 : Host) (st : Statics) :
  detectEnvironment h2 (snd (detectEnvironment h1 st))
  = detectEnvironment h1 st.
Proof.
  rewrite (detectEnvironment_cached h2 _ _ (detectEnvironment_caches h1 st)).
  now destruct (detectEnvironment h1 st).
Qed.

Lemma deriveConfig_fallback env : enableHttpFallback (deriveConfig env) = true.
Proof. reflexivity. Qed.

Lemma getConfig_fallback h st :
  fallback_enabled st ->
  enableHttpFallback (fst (getConfig h st)) = true
  /\ fallback_enabled (snd (getConfig h st)).
Proof.
  unfold fallback_enabled, getConfig.
  destruct (solverConfig st) as [config|] eqn:E.
  - simpl. rewrite E. auto.
  - intros _. destruct (detectEnvironment h st) as [env st1]. simpl. auto.
Qed.

Lemma reachable_fallback_enabled st : reachable st -> fallback_enabled st.
Proof.
  induction 1 as [|h st _ IH|h st _ IH].
  - exact I.
  - unfold fallback_enabled. now rewrite detectEnvironment_keeps_config.
  - now apply getConfig_fallback.
Qed.

Lemma strategy_names_fallback config :
  enableHttpFallback config = true ->
  In Http (strategy_names config)
  /\ In ApiSimulation (strategy_names config)
  /\ strategy_names config <> [].
Proof.
  intros E. unfold strategy_names. rewrite E.
  destruct (enablePuppeteer config); simpl; intuition congruence.
Qed.

(** C10. From any statics that the library itself can have produced, the
    configuration that [getConfig] hands out enables the HTTP fallback, so
    the strategy list of [solveCaptcha] holds the HTTP and the simulation
    strategy and is not empty. *)
Theorem derived_config_never_empty (h : Host) (st : Statics) :
  reachable st ->
  let config := fst (getConfig h st) in
  enableHttpFallback config = true
  /\ In Http (strategy_names config)
  /\ In ApiSimulation (strategy_names config)
  /\ strategy_names config <> []
  /\ forall w challenge,
       map (strategy w config challenge) (strategy_names config) <> [].
Proof.
  intros R config.
  destruct (getConfig_fallback h st (reachable_fallback_enabled st R)) as [E _].
  fold config in E.
  destruct (strategy_names_fallback config E) as (H1 & H2 & H3).
  repeat split; auto.
  intros w challenge Hmap. apply map_eq_nil in Hmap. contradiction.
Qed.

Lemma derived_config_never_empty_witness :
  reachable initial_statics
  /\ strategy_names
       (fst (getConfig {| process_env := ∅; puppeteer_installed := false;
                          existsSync := fun _ => false |} initial_statics))
     <> [].
Proof.
  split; [exact reachable_initial|].
  apply (derived_config_never_empty _ initial_statics reachable_initial).
Defined.

End Environment.

(** ** Strings *)

Section Strings.

Lemma append_cons c (s t : string) : String c s ++ t = String c (s ++ t).
Proof. reflexivity. Qed.

Lemma append_nil_l (t : string) : EmptyString ++ t = t.
Proof. reflexivity. Qed.

Lemma append_assoc (a b c : string) : (a ++ b) ++ c = a ++ (b ++ c).
Proof.
  induction a as [|x a IH]; [reflexivity|].
  now rewrite !append_cons, IH.
Qed.

Lemma startsWith_spec (s p : string) :
  JS.startsWith s p = true <-> exists rest, s = p ++ rest.
Proof.
  unfold JS.startsWith. revert s.
  induction p as [|c p IH]; intros s.
  - destruct s; simpl; split; eauto.
  - destruct s as [|d s]; simpl.
    + split; [discriminate|]. intros [rest E]. discriminate.
    + destruct (ascii_dec c d) as [->|Hne].
      * rewrite IH. split; intros [rest E]; exists rest.
        -- now rewrite append_cons, <- E.
        -- rewrite append_cons in E. now injection E.
      * split; [discriminate|]. intros [rest E].
        rewrite append_cons in E. injection E as E1 _. congruence.
Qed.

Lemma includes_unfold (s sub : string) :
  JS.includes s sub
  = if JS.startsWith s sub then true
    else match s with
         | EmptyString => false
         | String _ s' => JS.includes s' sub
         end.
Proof. destruct s; reflexivity. Qed.

Lemma includes_spec (s sub : string) :
  JS.includes s sub = true <-> exists before after, s = before ++ sub ++ after.
Proof.
  induction s as [|c s IH]; rewrite includes_unfold.
  - destruct (JS.startsWith EmptyString sub) eqn:E.
    + apply startsWith_spec in E as [rest E].
      split; [|reflexivity]. intros _. exists EmptyString, rest. exact E.
    + split; [discriminate|]. intros (before & after & H).
      destruct before as [|b before]; [|discriminate].
      assert (JS.startsWith EmptyString sub = true) as E'
          by (apply startsWith_spec; eauto).
      congruence.
  - destruct (JS.startsWith (String c s) sub) eqn:E.
    + apply startsWith_spec in E as [rest E].
      split; [|reflexivity]. intros _. exists EmptyString, rest. exact E.
    + rewrite IH. split.
      * intros (before & after & H). exists (String c before), after.
        now rewrite append_cons, H.
      * intros (before & after & H).
        destruct before as [|b before].
        -- assert (JS.startsWith (String c s) sub = true) as E'
               by (apply startsWith_spec; eauto).
           congruence.
        -- rewrite append_cons in H. injection H as _ H. eauto.
Qed.

Lemma toLowerCase_app (a b : string) :
  JS.toLowerCase (a ++ b) = JS.toLowerCase a ++ JS.toLowerCase b.
Proof.
  induction a as [|c a IH]; [reflexivity|].
  rewrite append_cons. simpl. now rewrite IH.
Qed.

Lemma toLowerCase_split (s x y : string) :
  JS.toLowerCase s = x ++ y ->
  exists a b, s = a ++ b /\ JS.toLowerCase a = x /\ JS.toLowerCase b = y.
Proof.
  revert s. induction x as [|c x IH]; intros s H.
  - exists EmptyString, s. auto.
  - destruct s as [|d s]; [discriminate|].
    rewrite append_cons in H. simpl in H. injection H as Hc H.
    destruct (IH s H) as (a & b & -> & Ha & Hb).
    exists (String d a), b. simpl. rewrite Ha, Hc. auto.
Qed.

Lemma includes_ignoring_case (markup indicator : string) :
  JS.includes (JS.toLowerCase markup) (JS.toLowerCase indicator) = true
  <-> contains_ignoring_case markup indicator.
Proof.
  rewrite includes_spec. unfold contains_ignoring_case. split.
  - intros (x & y & H).
    apply toLowerCase_split in H as (before & rest & -> & _ & H).
    apply toLowerCase_split in H as (found & after & -> & H & _).
    eauto.
  - intros (before & found & after & -> & H).
    exists (JS.toLowerCase before), (JS.toLowerCase after).
    now rewrite !toLowerCase_app, H.
Qed.

End Strings.

(** ** Detection of a widget *)

Section Detection.

Import AngryCAPTCHA.

(** C6. [containsCaptcha] answers true exactly when the markup contains
    one of the ten indicators up to the case of letters; on the markup
    without a widget it answers false and the extractor finds nothing. *)
Theorem containsCaptcha_spec :
  (forall html : string,
      containsCaptcha html = true
      <-> exists indicator,
            In indicator indicators /\ contains_ignoring_case html indicator)
  /\ containsCaptcha "no captcha here" = false
  /\ extractCaptchaChallenge "no captcha here" = None.
Proof.
  split; [|split; vm_compute; reflexivity].
  intros html. unfold containsCaptcha. rewrite existsb_exists.
  split; intros (indicator & Hin & H); exists indicator; split; auto;
    now apply includes_ignoring_case.
Qed.

End Detection.

(** ** Challenge extraction *)

Section Extraction.

Import AngryCAPTCHA.

Lemma match1_truthy html p value :
  Regex.match1 html p = Some value -> JS.truthy_string value = true.
Proof.
  unfold Regex.match1.
  destruct (Regex.exec p html) as [[| |text]|]; try discriminate.
  destruct (JS.truthy_string text) eqn:E; [|discriminate].
  now intros [= <-].
Qed.

Lemma extractValue_None html patterns :
  extractValue html patterns = None <-> no_match html patterns.
Proof.
  unfold no_match. induction patterns as [|p rest IH]; simpl.
  - split; auto.
  - destruct (Regex.match1 html p) eqn:E.
    + split; [discriminate|]. intros H. inversion H; congruence.
    + rewrite IH. split; intros H; [now constructor|now inversion H].
Qed.

Lemma extractValue_Some html patterns value :
  extractValue html patterns = Some value <-> first_match html patterns value.
Proof.
  unfold first_match. induction patterns as [|p rest IH]; simpl.
  - split; [discriminate|]. intros (earlier & q & later & H & _).
    now destruct earlier.
  - destruct (Regex.match1 html p) eqn:E.
    + split.
      * intros [= ->]. exists [], p, rest. repeat split; auto. constructor.
      * intros (earlier & q & later & H & Hno & Hq).
        destruct earlier as [|e earlier]; simpl in H; injection H as -> ->.
        -- congruence.
        -- inversion Hno; congruence.
    + rewrite IH. split.
      * intros (earlier & q & later & -> & Hno & Hq).
        exists (p :: earlier), q, later. repeat split; auto.
        now constructor.
      * intros (earlier & q & later & H & Hno & Hq).
        destruct earlier as [|e earlier]; simpl in H; injection H as -> ->.
        -- congruence.
        -- inversion Hno; subst. exists earlier, q, later. repeat split; auto.
Qed.

Lemma extractValue_resolved html patterns :
  resolved html patterns (or_undefined (extractValue html patterns)).
Proof.
  destruct (extractValue html patterns) as [value|] eqn:E; simpl.
  - pose proof E as F. apply extractValue_Some in F.
    destruct F as (earlier & p & later & _ & _ & Hp).
    rewrite (match1_truthy _ _ _ Hp). simpl. now apply extractValue_Some.
  - now apply extractValue_None.
Qed.

Lemma push_digit_headed c cap : digit_headed cap -> digit_headed (Regex.push c cap).
Proof.
  destruct cap as [|acc|text]; simpl; auto.
  destruct acc; [discriminate|]. now rewrite append_cons.
Qed.

Lemma close_digit_headed cap : digit_headed cap -> digit_headed (Regex.close cap).
Proof. destruct cap; simpl; auto. Qed.

Lemma greedy_inv (Q P : Regex.capture -> Prop) a k :
  (forall c cap, Q cap -> Q (Regex.push c cap)) ->
  (forall s cap r, k s cap = Some r -> Q cap -> P r) ->
  forall s cap r, Regex.greedy a k s cap = Some r -> Q cap -> P r.
Proof.
  intros HQ Hk. induction s as [|c s IH]; intros cap r; simpl.
  - apply Hk.
  - destruct (Regex.atom_matches a c); [|apply Hk].
    destruct (Regex.greedy a k s (Regex.push c cap)) as [r'|] eqn:E.
    + intros [= <-] Hcap. eapply IH; eauto.
    + apply Hk.
Qed.

Lemma match_here_digit_headed p :
  no_open p = true ->
  forall s cap r,
    Regex.match_here p s cap = Some r -> digit_headed cap -> digit_headed r.
Proof.
  induction p as [|n p IH]; simpl; intros Hp s cap r.
  - now intros [= <-].
  - destruct n as [a [| |]| |]; try discriminate; simpl in Hp.
    + destruct s as [|c s]; [discriminate|].
      destruct (Regex.atom_matches a c); [|discriminate].
      intros H Hcap. eapply IH; eauto using push_digit_headed.
    + apply (greedy_inv digit_headed digit_headed);
        [auto using push_digit_headed | exact (IH Hp)].
    + destruct s as [|c s]; [discriminate|].
      destruct (Regex.atom_matches a c); [|discriminate].
      intros H Hcap.
      apply (greedy_inv digit_headed digit_headed _ _
               push_digit_headed (IH Hp) _ _ _ H).
      now apply push_digit_headed.
    + intros H Hcap. eapply IH; eauto using close_digit_headed.
Qed.

Lemma match_here_digits earlier later :
  no_open later = true ->
  forall s cap r,
    Regex.match_here (earlier ++ Regex.Open :: digits :: later)%list s cap = Some r ->
    digit_headed r.
Proof.
  intros Hlater. induction earlier as [|n earlier IH]; intros s cap r.
  - simpl. destruct s as [|c s]; [discriminate|].
    destruct (Regex.is_digit c) eqn:Hc; [|discriminate].
    intros H.
    eapply (greedy_inv digit_headed digit_headed);
      eauto using push_digit_headed, match_here_digit_headed.
  - destruct n as [a [| |]| |]; simpl.
    + destruct s as [|c s]; [discriminate|].
      destruct (Regex.atom_matches a c); [|discriminate]. apply IH.
    + intros H. eapply (greedy_inv (fun _ => True) digit_headed); eauto.
    + destruct s as [|c s]; [discriminate|].
      destruct (Regex.atom_matches a c); [|discriminate].
      intros H. eapply (greedy_inv (fun _ => True) digit_headed); eauto.
    + apply IH.
    + apply IH.
Qed.

Lemma exec_match_here p s r :
  Regex.exec p s = Some r ->
  exists s', Regex.match_here p s' Regex.Unopened = Some r.
Proof.
  induction s as [|c s IH]; simpl.
  - destruct (Regex.match_here p EmptyString Regex.Unopened) eqn:E;
      [|discriminate].
    intros [= <-]. eauto.
  - destruct (Regex.match_here p (String c s) Regex.Unopened) eqn:E.
    + intros [= <-]. eauto.
    + exact IH.
Qed.

Lemma parseInt_digits d :
  starts_with_digit d = true -> parseInt d = Some (parse_digits 0 d).
Proof.
  destruct d as [|c d]; [discriminate|]. unfold parseInt. simpl.
  now intros ->.
Qed.

Lemma difficulty_patterns_shape :
  Forall (fun p => exists earlier later,
              p = (earlier ++ Regex.Open :: digits :: later)%list
              /\ no_open later = true)
         difficulty_patterns.
Proof.
  repeat constructor.
  - exists (Regex.lit "data-difficulty=" ++ [Regex.quote])%list,
           [Regex.Close; Regex.quote].
    split; reflexivity.
  - exists (Regex.lit "difficulty:" ++ [Regex.spaces])%list, [Regex.Close].
    split; reflexivity.
Qed.

Lemma difficulty_capture html d :
  first_match html difficulty_patterns d -> starts_with_digit d = true.
Proof.
  intros (earlier & p & later & Hsplit & _ & Hp).
  assert (In p difficulty_patterns) as Hin
      by (rewrite Hsplit; apply in_elt).
  pose proof (proj1 (List.Forall_forall _ _) difficulty_patterns_shape)
    as Hshape.
  destruct (Hshape p Hin) as (pre & post & -> & Hpost).
  unfold Regex.match1 in Hp.
  destruct (Regex.exec _ html) as [[| |text]|] eqn:E; try discriminate.
  destruct (JS.truthy_string text); [|discriminate].
  injection Hp as ->.
  apply exec_match_here in E as [s' E].
  exact (match_here_digits pre post Hpost _ _ _ E).
Qed.

(** C5. The site key is what the first matching pattern of the ordered
    list captures, and the extractor returns nothing exactly when no
    site-key pattern matches; each optional field is resolved through its
    own ordered list and is left unset exactly when none of its patterns
    matches; on the sample markup the result has site key ABC123, lang en
    and no other field. *)
Theorem extractCaptchaChallenge_spec :
  (forall html,
      extractCaptchaChallenge html = None <-> no_match html sitekey_patterns)
  /\ (forall html key,
         first_match html sitekey_patterns key ->
         exists challenge,
           extractCaptchaChallenge html = Some challenge
           /\ sitekey challenge = key)
  /\ (forall html challenge,
         extractCaptchaChallenge html = Some challenge ->
         first_match html sitekey_patterns (sitekey challenge)
         /\ resolved html puzzleEndpoint_patterns (puzzleEndpoint challenge)
         /\ resolved html lang_patterns (lang challenge)
         /\ resolved html startMode_patterns (startMode challenge)
         /\ match difficulty challenge with
            | Some n =>
                exists d, first_match html difficulty_patterns d
                          /\ parseInt d = Some n
            | None => no_match html difficulty_patterns
            end)
  /\ extractCaptchaChallenge sample_markup
     = Some {| sitekey := "ABC123";
               puzzleEndpoint := None;
               difficulty := None;
               lang := Some "en";
               startMode := None |}.
Proof.
  split; [|split; [|split]].
  - intros html. unfold extractCaptchaChallenge.
    destruct (extractValue html sitekey_patterns) as [key|] eqn:E.
    + split; [discriminate|]. intros H.
      apply extractValue_None in H. congruence.
    + split; auto. intros _. now apply extractValue_None.
  - intros html key H. apply extractValue_Some in H.
    unfold extractCaptchaChallenge. rewrite H. eexists. split; reflexivity.
  - intros html challenge. unfold extractCaptchaChallenge.
    destruct (extractValue html sitekey_patterns) as [key|] eqn:E;
      [|discriminate].
    intros H. apply (inj Some) in H. subst challenge.
    cbn [sitekey puzzleEndpoint difficulty lang startMode].
    split; [now apply extractValue_Some|].
    repeat (split; [apply extractValue_resolved|]).
    pose proof (extractValue_resolved html difficulty_patterns) as R.
    destruct (or_undefined (extractValue html difficulty_patterns)) as [d|];
      simpl in R; [|exact R].
    rewrite (parseInt_digits d (difficulty_capture html d R)).
    exists d. split; [exact R|].
    apply parseInt_digits, (difficulty_capture html d R).
  - vm_compute. reflexivity.
Qed.

Lemma extractCaptchaChallenge_spec_witness :
  first_match sample_markup sitekey_patterns "ABC123"
  /\ resolved sample_markup lang_patterns (Some "en")
  /\ resolved sample_markup startMode_patterns None.
Proof.
  destruct extractCaptchaChallenge_spec as (_ & _ & H & E).
  destruct (H _ _ E) as (H1 & _ & H3 & H4 & _).
  exact (conj H1 (conj H3 H4)).
Defined.

End Extraction.

(** ** The nonce search of the protocol fallback *)

Section ProofOfWork.

Import AngryCAPTCHA.

Variables data target : string.





End ProofOfWork.

Section Token.

Import AngryCAPTCHA.


Lemma repeat0_in_range count :
  0 <= count <= JS.MAX_STRING_LENGTH ->
  JS.repeat0 count = inr (JS.zeros (Z.to_nat count)).
Proof.
  intros H. unfold JS.repeat0.
  destruct (count <? 0) eqn:E; [lia|].
  destruct (JS.MAX_STRING_LENGTH <? count) eqn:F; [lia|reflexivity].
Qed.




End Token.

(** ** The cascade *)

Section Cascade.

Import AngryCAPTCHA.

Variables (ms startTime : Z) (n : nat).

Lemma raced_settles {A} (attempt : Async.Async A) (budget t : Z) :
  exists t' outcome, raced attempt budget t = Some (t', outcome).
Proof.
  unfold raced, createTimeout, Async.race.
  destruct (attempt t) as [[tp op]|]; [|eauto].
  destruct (tp <=? _); eauto.
Qed.

Lemma raced_fulfilled {A} (attempt : Async.Async A) (budget t t' : Z) (v : A) :
  raced attempt budget t = Some (t', Async.Fulfilled v) ->
  attempt t = Some (t', Async.Fulfilled v).
Proof.
  unfold raced, createTimeout, Async.race.
  destruct (attempt t) as [[tp op]|]; [|discriminate].
  destruct (tp <=? _); [auto|discriminate].
Qed.

Lemma raced_pending {A} (attempt : Async.Async A) (budget t : Z) :
  Async.pending_at (attempt t) (t + Async.timer_delay budget) ->
  raced attempt budget t
  = Some (t + Async.timer_delay budget,
          Async.Rejected (JS.JsError (timeout_message budget))).
Proof.
  unfold raced, createTimeout, Async.race, Async.pending_at.
  destruct (attempt t) as [[tp op]|]; [|reflexivity].
  intros H. destruct (tp <=? _) eqn:E; [lia|reflexivity].
Qed.

(** One turn of the loop, by the outcome of the race. *)
Lemma cascade_success i attempt rest lastError t log t' r :
  raced attempt ms t = Some (t', Async.Fulfilled r) ->
  success r = true ->
  cascade ms startTime n i (attempt :: rest) lastError t log
  = Some {| finished := t';
            result := with_solveTime r (t' - startTime);
            console := log ++ [Trying (i + 1) n; Solved (t' - startTime) (i + 1)] |}.
Proof.
  intros H E. simpl. rewrite H, E. now rewrite <- app_assoc.
Qed.

Lemma cascade_returned_failure i attempt rest lastError t log t' r :
  raced attempt ms t = Some (t', Async.Fulfilled r) ->
  success r = false ->
  cascade ms startTime n i (attempt :: rest) lastError t log
  = cascade ms startTime n (S i) rest lastError t' (log ++ [Trying (i + 1) n]).
Proof. intros H E. simpl. now rewrite H, E. Qed.

Lemma cascade_rejected i attempt rest lastError t log t' e :
  raced attempt ms t = Some (t', Async.Rejected e) ->
  cascade ms startTime n i (attempt :: rest) lastError t log
  = cascade ms startTime n (S i) rest (JS.message_or "Unknown error" e) t'
            (log ++ [Trying (i + 1) n;
                     Failed (i + 1) (JS.message_or "Unknown error" e)]).
Proof. intros H. simpl. rewrite H. now rewrite <- app_assoc. Qed.

Lemma cascade_end i lastError t log :
  cascade ms startTime n i [] lastError t log
  = Some {| finished := t;
            result := failure (all_failed_message lastError) (t - startTime);
            console := log ++ [SolvingFailed (all_failed_message lastError)] |}.
Proof. reflexivity. Qed.

Lemma tried_app l1 l2 : tried (l1 ++ l2) = (tried l1 ++ tried l2)%list.
Proof. unfold tried. apply flat_map_app. Qed.

Lemma cascade_first_success earlier :
  forall i lastError t log attempt later t1 t2 r,
    all_fail ms earlier t = Some t1 ->
    raced attempt ms t1 = Some (t2, Async.Fulfilled r) ->
    success r = true ->
    exists log',
      cascade ms startTime n i (earlier ++ attempt :: later) lastError t log
      = Some {| finished := t2;
                result := with_solveTime r (t2 - startTime);
                console := log' |}
      /\ tried log' = (tried log ++ seq (i + 1) (length earlier + 1))%list.
Proof.
  induction earlier as [|s earlier IH];
    intros i lastError t log attempt later t1 t2 r Hfail Hrace Hr.
  - injection Hfail as ->. rewrite app_nil_l.
    rewrite (cascade_success _ _ _ _ _ _ _ _ Hrace Hr).
    eexists. split; [reflexivity|].
    rewrite tried_app. reflexivity.
  - cbn [all_fail] in Hfail. unfold attempt_fails in Hfail.
    destruct (raced s ms t) as [[t' [r'|e]]|] eqn:E; [| |discriminate].
    + destruct (success r') eqn:Er'; [discriminate|].
      rewrite <- app_comm_cons.
      rewrite (cascade_returned_failure _ _ _ _ _ _ _ _ E Er').
      destruct (IH (S i) lastError t' (log ++ [Trying (i + 1) n])%list
                   attempt later t1 t2 r Hfail Hrace Hr) as (log' & -> & Hlog).
      eexists. split; [reflexivity|].
      rewrite Hlog, tried_app. cbn [tried flat_map app length].
      rewrite <- app_assoc. reflexivity.
    + rewrite <- app_comm_cons.
      rewrite (cascade_rejected _ _ _ _ _ _ _ _ E).
      destruct (IH (S i) (JS.message_or "Unknown error" e) t'
                   (log ++ [Trying (i + 1) n;
                            Failed (i + 1) (JS.message_or "Unknown error" e)])%list
                   attempt later t1 t2 r Hfail Hrace Hr) as (log' & -> & Hlog).
      eexists. split; [reflexivity|].
      rewrite Hlog, tried_app. cbn [tried flat_map app length].
      rewrite <- app_assoc. reflexivity.
Qed.

End Cascade.

(** ** [solveCaptcha] *)

Section Solve.

Import AngryCAPTCHA.

Lemma solveCaptcha_unfold w challenge st t :
  solveCaptcha w challenge st t
  = let config := fst (getConfig (host w) st) in
    let st1 := snd (getConfig (host w) st) in
    let env := fst (detectEnvironment (host w) st1) in
    let st2 := snd (detectEnvironment (host w) st1) in
    match solveCaptchaWith w config env challenge t with
    | Some run => Some (run, st2)
    | None => None
    end.
Proof.
  unfold solveCaptcha.
  destruct (getConfig (host w) st) as [config st1]. simpl.
  now destruct (detectEnvironment (host w) st1) as [env st2].
Qed.

(** C3. When the strategies before an attempt all fail and that attempt
    fulfils with a successful result within the budget, [solveCaptcha]
    returns at that moment: the strategies invoked are those up to the
    winner and no later one, the result carries the solution of the winning
    attempt, and its solve time is the time elapsed since the call. *)
Theorem solveCaptcha_first_success
        (w : World) (challenge : CaptchaChallenge) (st : Statics) (t0 : Z)
        (earlier later : list Strategy) (attempt : Strategy)
        (t1 t2 : Z) (r : CaptchaSolveResult) :
  let config := fst (getConfig (host w) st) in
  map (strategy w config challenge) (strategy_names config)
  = (earlier ++ attempt :: later)%list ->
  all_fail (timeout config) earlier t0 = Some t1 ->
  raced attempt (timeout config) t1 = Some (t2, Async.Fulfilled r) ->
  success r = true ->
  exists run st',
    solveCaptcha w challenge st t0 = Some (run, st')
    /\ finished run = t2
    /\ tried (console run) = seq 1 (length earlier + 1)
    /\ success (result run) = true
    /\ result_solution (result run) = result_solution r
    /\ formData (result run) = formData r
    /\ result_solveTime (result run) = Some (finished run - t0).
Proof.
  intros config Hlist Hfail Hrace Hr.
  rewrite solveCaptcha_unfold. cbv zeta. fold config.
  unfold solveCaptchaWith. rewrite Hlist.
  set (st2 := snd (detectEnvironment (host w) (snd (getConfig (host w) st)))).
  destruct (cascade_first_success (timeout config) t0
              (length (earlier ++ attempt :: later)) earlier 0 EmptyString t0
              [Starting (platform (fst (detectEnvironment (host w)
                                          (snd (getConfig (host w) st)))))]
              attempt later t1 t2 r Hfail Hrace Hr) as (log' & Hrun & Hlog).
  exists {| finished := t2;
            result := with_solveTime r (t2 - t0);
            console := log' |}, st2.
  split.
  - exact (f_equal (fun o : option Run =>
                      match o with
                      | Some run => Some (run, st2)
                      | None => None
                      end) Hrun).
  - cbn [finished console result with_solveTime success result_solution
         formData result_solveTime].
    repeat split; auto.
Qed.

Lemma solveCaptcha_first_success_witness :
  exists run st',
    solveCaptcha offline_world sample_challenge initial_statics 1000
    = Some (run, st')
    /\ finished run = 3005
    /\ tried (console run) = seq 1 (1 + 1)
    /\ success (result run) = true
    /\ result_solution (result run)
       = Some {| solution := "ABC123.5d165c25.3005";
                 timestamp := 3005;
                 solveTime := 2000;
                 method := fallback;
                 debugInfo :=
                   Some (ApiSimulationInfo
                           {| widget_sitekey := "ABC123";
                              widget_timestamp := 1005;
                              widget_difficulty := 1;
                              widget_lang := "en" |}) |}
    /\ formData (result run)
       = Some [ ("frc-captcha-solution", "ABC123.5d165c25.3005");
                ("frc-captcha-sitekey", "ABC123") ]
    /\ result_solveTime (result run) = Some (finished run - 1000).
Proof.
  apply (solveCaptcha_first_success
           offline_world sample_challenge initial_statics 1000
           [solveCaptchaWithHttp (fetch offline_world) sample_challenge] []
           (solveCaptchaWithApiSimulation sample_challenge) 1005 3005
           {| success := true;
              result_solution :=
                Some {| solution := "ABC123.5d165c25.3005";
                        timestamp := 3005;
                        solveTime := 2000;
                        method := fallback;
                        debugInfo :=
                          Some (ApiSimulationInfo
                                  {| widget_sitekey := "ABC123";
                                     widget_timestamp := 1005;
                                     widget_difficulty := 1;
                                     widget_lang := "en" |}) |};
              error := None;
              formData :=
                Some [ ("frc-captcha-solution", "ABC123.5d165c25.3005");
                       ("frc-captcha-sitekey", "ABC123") ];
              result_solveTime := Some 2000 |}).
  - reflexivity.
  - vm_compute. reflexivity.
  - vm_compute. reflexivity.
  - reflexivity.
Defined.

(** C4, as the code has it. An attempt that is still pending when the
    timer of the budget fires loses the race: the attempt is rejected with
    the text Timeout after <ms>ms, that text is logged and kept as the last
    error, and the loop goes on with the next strategy. *)
Theorem pending_attempt_times_out
        (ms startTime : Z) (n i : nat) (attempt : Strategy)
        (rest : list Strategy) (lastError : string) (t : Z)
        (log : list LogLine) :
  Async.pending_at (attempt t) (t + Async.timer_delay ms) ->
  let text := "Timeout after " ++ JS.toString ms ++ "ms" in
  raced attempt ms t
  = Some (t + Async.timer_delay ms, Async.Rejected (JS.JsError text))
  /\ cascade ms startTime n i (attempt :: rest) lastError t log
     = cascade ms startTime n (S i) rest text (t + Async.timer_delay ms)
               (log ++ [Trying (i + 1) n; Failed (i + 1) text]).
Proof.
  intros Hpending text.
  pose proof (raced_pending attempt ms t Hpending) as Hrace.
  split; [exact Hrace|].
  exact (cascade_rejected ms startTime n i attempt rest lastError t log _ _ Hrace).
Qed.

Lemma pending_attempt_times_out_witness :
  Async.pending_at ((never : Strategy) 0) (0 + Async.timer_delay 50)
  /\ cascade 50 0 1 0 [never] EmptyString 0 []
     = cascade 50 0 1 1 [] "Timeout after 50ms" 50
               [Trying 1 1; Failed 1 "Timeout after 50ms"].
Proof.
  split; [exact I|].
  apply (pending_attempt_times_out 50 0 1 0 never [] EmptyString 0 [] I).
Defined.

(** C4, as the claim has it, fails on the case of the first letter: under
    a budget of 50 ms an attempt that never settles is recorded with the
    text Timeout after 50ms, not timeout after 50ms. *)
Lemma timeout_text_is_capitalised :
  Async.pending_at ((never : Strategy) 0) (0 + Async.timer_delay 50)
  /\ raced (never : Strategy) 50 0
     <> Some (50, Async.Rejected (JS.JsError "timeout after 50ms"))
  /\ exists run,
       cascade 50 0 1 0 [never] EmptyString 0 [] = Some run
       /\ In (Failed 1 "Timeout after 50ms") (console run)
       /\ ~ In (Failed 1 "timeout after 50ms") (console run)
       /\ error (result run)
          = Some "All strategies failed. Last error: Timeout after 50ms".
Proof.
  split; [exact I|]. split; [vm_compute; discriminate|].
  eexists. split; [vm_compute; reflexivity|].
  cbn [console result error failure]. split; [simpl; auto|].
  split; [|reflexivity].
  simpl. intros [H|[H|[H|[]]]]; discriminate.
Qed.

Lemma exactly_one_failure message elapsed :
  exactly_one (failure message elapsed).
Proof.
  unfold exactly_one, failure, is_Some. simpl.
  intuition (try discriminate; eauto). destruct H as [? ?]. discriminate.
Qed.

Lemma exactly_one_success sol fd st :
  exactly_one {| success := true; result_solution := Some sol; error := None;
                 formData := fd; result_solveTime := st |}.
Proof.
  unfold exactly_one, is_Some. simpl.
  intuition (try discriminate; eauto). destruct H as [? ?]. discriminate.
Qed.

Lemma exactly_one_with_solveTime r solveTime :
  exactly_one r -> exactly_one (with_solveTime r solveTime).
Proof. unfold exactly_one. now destruct r. Qed.

End Solve.

(** ** The invariant of the result *)

Section Invariant.

Import AngryCAPTCHA.

Ltac settle :=
  repeat match goal with
         | H : Some _ = Some _ |- _ => injection H as H
         | H : (_, _) = (_, _) |- _ => injection H as ? H
         | H : Async.Fulfilled _ = Async.Fulfilled _ |- _ => injection H as H
         | H : None = Some _ |- _ => discriminate H
         | H : Async.Rejected _ = Async.Fulfilled _ |- _ => discriminate H
         | H : context [match ?x with _ => _ end] |- _ => destruct x eqn:?
         end.

Lemma solveCaptchaWithHttp_well_behaved fetch challenge :
  well_behaved (solveCaptchaWithHttp fetch challenge).
Proof.
  intros t t' r H.
  unfold solveCaptchaWithHttp, Async.try_catch, Async.bind, Async.throw,
    Async.ret, Async.now in H.
  settle; subst;
    first [apply exactly_one_failure | apply exactly_one_success].
Qed.

Lemma solveCaptchaWithApiSimulation_well_behaved challenge :
  well_behaved (solveCaptchaWithApiSimulation challenge).
Proof.
  intros t t' r H.
  unfold solveCaptchaWithApiSimulation, Async.try_catch, Async.bind,
    Async.throw, Async.ret, Async.now, Async.delay in H.
  settle; subst;
    first [apply exactly_one_failure | apply exactly_one_success].
Qed.

Lemma puppeteer_loop_well_behaved startTime attempts :
  forall lastError, well_behaved (puppeteer_loop startTime attempts lastError).
Proof.
  induction attempts as [|attempt attempts IH]; intros lastError t t' r H.
  - discriminate.
  - cbn [puppeteer_loop] in H.
    destruct (raced attempt SOLVE_TIMEOUT t) as [[t1 [[sub|]|e]]|];
      [| | |discriminate].
    + destruct (sub_success sub).
      * injection H as _ <-. apply exactly_one_success.
      * exact (IH _ _ _ _ H).
    + exact (IH _ _ _ _ H).
    + exact (IH _ _ _ _ H).
Qed.

Lemma solveCaptchaWithPuppeteer_well_behaved engine config challenge :
  well_behaved (solveCaptchaWithPuppeteer engine config challenge).
Proof.
  intros t t' r H. unfold solveCaptchaWithPuppeteer in H.
  destruct (initBrowser engine config t) as [[t1 [[]|e]]|]; [| |discriminate].
  - destruct (newPage engine t1) as [[t2 [[]|e]]|]; [| |discriminate].
    + unfold Async.bind at 1 in H.
      match type of H with
      | context [Async.try_catch ?body ?handler t2] =>
          destruct (Async.try_catch body handler t2)
            as [[t3 [r3|e3]]|] eqn:Hbody; [| discriminate | discriminate]
      end.
      assert (exactly_one r3) as Hr3.
      { unfold Async.try_catch in Hbody.
        match type of Hbody with
        | context [Async.bind ?m ?k t2] =>
            destruct (Async.bind m k t2) as [[t4 [r4|e4]]|] eqn:Hloop;
              [| | discriminate]
        end.
        - injection Hbody as _ <-.
          unfold Async.bind in Hloop.
          destruct (configurePage engine t2) as [[t5 [[]|e5]]|];
            [| discriminate | discriminate].
          exact (puppeteer_loop_well_behaved _ _ _ _ _ _ Hloop).
        - unfold Async.bind, Async.now, Async.ret in Hbody.
          injection Hbody as _ <-. apply exactly_one_failure. }
      unfold Async.bind, Async.try_catch, Async.ret in H.
      destruct (closePage engine t3) as [[t6 [[]|e6]]|]; [| |discriminate];
        injection H as _ <-; exact Hr3.
    + unfold Async.bind, Async.now, Async.ret in H.
      injection H as _ <-. apply exactly_one_failure.
  - unfold Async.bind, Async.now, Async.ret in H.
    injection H as _ <-. apply exactly_one_failure.
Qed.

Lemma strategy_well_behaved w config challenge name :
  well_behaved (strategy w config challenge name).
Proof.
  destruct name; simpl.
  - apply solveCaptchaWithPuppeteer_well_behaved.
  - apply solveCaptchaWithHttp_well_behaved.
  - apply solveCaptchaWithApiSimulation_well_behaved.
Qed.

Lemma cascade_exactly_one ms startTime n rest :
  Forall well_behaved rest ->
  forall i lastError t log,
  exists run,
    cascade ms startTime n i rest lastError t log = Some run
    /\ exactly_one (result run).
Proof.
  induction 1 as [|attempt rest Hattempt _ IH]; intros i lastError t log.
  - rewrite cascade_end. eexists. split; [reflexivity|].
    apply exactly_one_failure.
  - destruct (raced_settles attempt ms t) as (t' & [r|e] & Hrace).
    + destruct (success r) eqn:Hr.
      * rewrite (cascade_success _ _ _ _ _ _ _ _ _ _ _ Hrace Hr).
        eexists. split; [reflexivity|].
        apply exactly_one_with_solveTime.
        exact (Hattempt _ _ _ (raced_fulfilled _ _ _ _ _ Hrace)).
      * rewrite (cascade_returned_failure _ _ _ _ _ _ _ _ _ _ _ Hrace Hr).
        apply IH.
    + rewrite (cascade_rejected _ _ _ _ _ _ _ _ _ _ _ Hrace). apply IH.
Qed.

(** C7. [solveCaptcha] always returns, and in the result it returns the
    solution is present exactly when [success] is true and the error
    exactly when it is false. *)
Theorem solveCaptcha_exactly_one
        (w : World) (challenge : CaptchaChallenge) (st : Statics) (t : Z) :
  exists run st',
    solveCaptcha w challenge st t = Some (run, st')
    /\ exactly_one (result run).
Proof.
  rewrite solveCaptcha_unfold. cbv zeta. unfold solveCaptchaWith.
  set (config := fst (getConfig (host w) st)).
  set (st2 := snd (detectEnvironment (host w) (snd (getConfig (host w) st)))).
  set (strategies := map (strategy w config challenge) (strategy_names config)).
  assert (Forall well_behaved strategies) as Hall.
  { apply List.Forall_forall. intros s Hs.
    apply in_map_iff in Hs as (name & <- & _).
    apply strategy_well_behaved. }
  match goal with
  | |- context [cascade ?ms ?start ?len ?first strategies ?e ?t0 ?log] =>
      destruct (cascade_exactly_one ms start len strategies Hall first e t0 log)
        as (run & Hrun & Hone)
  end.
  exists run, st2. split; [|exact Hone].
  exact (f_equal (fun o : option Run =>
                    match o with
                    | Some run => Some (run, st2)
                    | None => None
                    end) Hrun).
Qed.

End Invariant.

(** ** The hash of the fallback strategies *)

Section Hash.

Import AngryCAPTCHA.

Lemma toInt32_range z : - 2 ^ 31 <= JS.toInt32 z < 2 ^ 31.
Proof.
  unfold JS.toInt32.
  pose proof (Z.mod_pos_bound (z + 2 ^ 31) (2 ^ 32) eq_refl). lia.
Qed.

Lemma toInt32_small z : - 2 ^ 31 <= z < 2 ^ 31 -> JS.toInt32 z = z.
Proof.
  intros H. unfold JS.toInt32. rewrite Z.mod_small; lia.
Qed.

Lemma toInt32_congruent a b :
  (a - b) mod 2 ^ 32 = 0 -> JS.toInt32 a = JS.toInt32 b.
Proof.
  intros H. unfold JS.toInt32. f_equal.
  apply Z.mod_divide in H; [|lia]. destruct H as [k Hk].
  replace (a + 2 ^ 31) with (b + 2 ^ 31 + k * 2 ^ 32) by lia.
  apply Z.mod_add. lia.
Qed.

Lemma toInt32_wraps z : (JS.toInt32 z - z) mod 2 ^ 32 = 0.
Proof.
  unfold JS.toInt32.
  rewrite (Z.mod_eq (z + 2 ^ 31) (2 ^ 32)) by lia.
  replace (z + 2 ^ 31 - 2 ^ 32 * ((z + 2 ^ 31) / 2 ^ 32) - 2 ^ 31 - z)
    with (- ((z + 2 ^ 31) / 2 ^ 32) * 2 ^ 32) by lia.
  apply Z.mod_mul. lia.
Qed.

Lemma hash_step_31 hash c :
  hash_step hash c = JS.toInt32 (31 * hash + Z.of_nat (nat_of_ascii c)).
Proof.
  unfold hash_step, JS.band, JS.shl. rewrite Z.land_diag.
  apply toInt32_congruent.
  rewrite Z.shiftl_mul_pow2 by lia.
  set (code := Z.of_nat (nat_of_ascii c)).
  pose proof (toInt32_wraps hash) as H1.
  pose proof (toInt32_wraps (JS.toInt32 hash * 2 ^ 5)) as H2.
  apply Z.mod_divide in H1; [|lia]. destruct H1 as [k1 H1].
  apply Z.mod_divide in H2; [|lia]. destruct H2 as [k2 H2].
  apply Z.mod_divide; [lia|]. exists (k2 + 32 * k1). lia.
Qed.

Lemma hash_loop_congruent str :
  forall h h',
    (h - h') mod 2 ^ 32 = 0 ->
    (hash_loop str h - polynomial31 str h') mod 2 ^ 32 = 0.
Proof.
  induction str as [|c str IH]; intros h h' H; simpl; [exact H|].
  apply IH. rewrite hash_step_31.
  pose proof (toInt32_wraps (31 * h + Z.of_nat (nat_of_ascii c))) as H1.
  apply Z.mod_divide in H; [|lia]. destruct H as [k Hk].
  apply Z.mod_divide in H1; [|lia]. destruct H1 as [k1 Hk1].
  apply Z.mod_divide; [lia|]. exists (k1 + 31 * k). lia.
Qed.

Lemma hash_loop_range str :
  forall h, - 2 ^ 31 <= h < 2 ^ 31 -> - 2 ^ 31 <= hash_loop str h < 2 ^ 31.
Proof.
  induction str as [|c str IH]; intros h H; simpl; [exact H|].
  apply IH. rewrite hash_step_31. apply toInt32_range.
Qed.

Lemma hash_loop_wrapped str :
  hash_loop str 0 = JS.toInt32 (polynomial31 str 0).
Proof.
  rewrite <- (toInt32_small (hash_loop str 0))
    by (apply hash_loop_range; lia).
  apply toInt32_congruent, hash_loop_congruent. reflexivity.
Qed.

(** X1. [simpleHash] is the base-31 polynomial hash of the code units
    wrapped to a signed 32-bit integer: its absolute value, in hexadecimal;
    so the value printed is at most 2^31. *)
Theorem simpleHash_polynomial (str : string) :
  simpleHash str = JS.toString16 (Z.abs (JS.toInt32 (polynomial31 str 0)))
  /\ 0 <= Z.abs (JS.toInt32 (polynomial31 str 0)) <= 2 ^ 31.
Proof.
  unfold simpleHash. rewrite hash_loop_wrapped. split; [reflexivity|].
  pose proof (toInt32_range (polynomial31 str 0)). lia.
Qed.

Lemma nzhead_not_D0 d d' : Hexadecimal.nzhead d <> Hexadecimal.D0 d'.
Proof. induction d; simpl; try discriminate. exact IHd. Qed.

Lemma to_hex_uint_normal n d :
  N.to_hex_uint n = Hexadecimal.D0 d -> d = Hexadecimal.Nil.
Proof.
  rewrite <- (HexadecimalN.Unsigned.of_to n) at 1.
  rewrite HexadecimalN.Unsigned.to_of. unfold Hexadecimal.unorm.
  destruct (Hexadecimal.nzhead (N.to_hex_uint n)) eqn:E;
    try discriminate.
  - now intros [= <-].
  - now apply nzhead_not_D0 in E.
Qed.

Lemma to_hex_uint_nonnil n : N.to_hex_uint n <> Hexadecimal.Nil.
Proof.
  destruct n; simpl; [discriminate|].
  apply HexadecimalPos.Unsigned.to_uint_nonnil.
Qed.

Lemma toString16_leading_zero v :
  0 <= v ->
  JS.toString16 v <> EmptyString
  /\ (JS.startsWith (JS.toString16 v) "0" = true -> JS.toString16 v = "0")
  /\ (JS.toString16 v = "0" <-> v = 0).
Proof.
  intros Hv. unfold JS.toString16, HexadecimalString.NilZero.string_of_uint.
  pose proof (to_hex_uint_nonnil (Z.to_N v)) as Hnil.
  pose proof (to_hex_uint_normal (Z.to_N v)) as Hnorm.
  assert (N.to_hex_uint (Z.to_N v) = Hexadecimal.D0 Hexadecimal.Nil -> v = 0)
    as Hzero.
  { intros E. change (Hexadecimal.D0 Hexadecimal.Nil) with (N.to_hex_uint 0) in E.
    apply HexadecimalN.Unsigned.to_uint_inj in E. lia. }
  destruct (N.to_hex_uint (Z.to_N v)) as [|d|d|d|d|d|d|d|d|d|d|d|d|d|d|d|d] eqn:E;
    try congruence;
    try (split; [discriminate|]; split; [discriminate|];
         split; [discriminate|]; intros ->; discriminate).
  rewrite (Hnorm d eq_refl) in *.
  split; [discriminate|]. split; [reflexivity|].
  split; [intros _; now apply Hzero|reflexivity].
Qed.

Lemma simpleHash_zero_lead str :
  JS.startsWith (simpleHash str) "0" = true -> simpleHash str = "0".
Proof.
  unfold simpleHash. apply toString16_leading_zero. lia.
Qed.

(** X2. The printed hash is never empty and has no leading zero: it starts
    with the digit 0 only when the wrapped polynomial is 0, and then it is
    the one-digit string 0. *)
Theorem simpleHash_leading_zero (str : string) :
  simpleHash str <> EmptyString
  /\ (JS.startsWith (simpleHash str) "0" = true
      <-> JS.toInt32 (polynomial31 str 0) = 0)
  /\ (JS.startsWith (simpleHash str) "0" = true -> simpleHash str = "0").
Proof.
  assert (0 <= Z.abs (hash_loop str 0)) as Hlo by lia.
  destruct (toString16_leading_zero _ Hlo) as (Hne & Hlead & Hzero).
  fold (simpleHash str) in Hne, Hlead, Hzero.
  rewrite <- hash_loop_wrapped.
  split; [exact Hne|]. split; [|exact Hlead].
  split.
  - intros H. apply Hlead, Hzero in H. lia.
  - intros H. unfold simpleHash. rewrite H. reflexivity.
Qed.

Lemma simpleHash_two_zeros str k :
  JS.startsWith (simpleHash str) (JS.zeros (S (S k))) = false.
Proof.
  destruct (JS.startsWith (simpleHash str) (JS.zeros (S (S k)))) eqn:E;
    [|reflexivity].
  apply startsWith_spec in E as [rest E].
  assert (JS.startsWith (simpleHash str) "0" = true) as H0.
  { apply startsWith_spec. exists (JS.zeros (S k) ++ rest).
    rewrite E. reflexivity. }
  apply simpleHash_zero_lead in H0. rewrite H0 in E. discriminate.
Qed.

Lemma pow_loop_never data target fuel :
  (forall nonce,
      JS.startsWith (simpleHash (data ++ JS.toString nonce)) target = false) ->
  forall nonce,
    pow_loop data target fuel nonce = None
    /\ pow_iterations data target fuel nonce = fuel.
Proof.
  intros Hmiss. induction fuel as [|fuel IH]; intros nonce; simpl.
  - auto.
  - rewrite Hmiss. destruct (IH (nonce + 1)) as [-> ->]. auto.
Qed.

(** X3. From a difficulty of 2000 on the nonce search cannot succeed,
    since no hash starts with two zeros: the loop runs all its 10000
    rounds and the work value is the hash of data and the current time. *)
Theorem search_futile_from_2000 (data : string) (difficulty now : Z) :
  2 <= difficulty / 1000 <= JS.MAX_STRING_LENGTH ->
  simulateProofOfWork data difficulty now
  = inr (simpleHash (data ++ JS.toString now))
  /\ Z.of_nat (pow_iterations
                 data (JS.zeros (Z.to_nat (difficulty / 1000))) MAX_ITERATIONS 0)
     = 10000.
Proof.
  intros H. unfold simulateProofOfWork.
  rewrite repeat0_in_range by lia.
  destruct (Z.to_nat (difficulty / 1000)) as [|[|k]] eqn:E; try lia.
  destruct (pow_loop_never data (JS.zeros (S (S k))) MAX_ITERATIONS
              (fun nonce => simpleHash_two_zeros _ k) 0) as [-> ->].
  split; [reflexivity|]. unfold MAX_ITERATIONS. lia.
Qed.

Lemma search_futile_from_2000_witness :
  2 <= 5000 / 1000 <= JS.MAX_STRING_LENGTH
  /\ simulateProofOfWork "abc" 5000 7 = inr (simpleHash ("abc" ++ JS.toString 7)).
Proof.
  assert (2 <= 5000 / 1000 <= JS.MAX_STRING_LENGTH) as H
      by (vm_compute; split; discriminate).
  split; [exact H|]. exact (proj1 (search_futile_from_2000 "abc" 5000 7 H)).
Defined.

(** X4. Below a difficulty of 1000 the target is empty, so the first nonce
    is accepted: the work value is the hash of data followed by the digit
    0, found in one round, whatever the time. *)
Theorem search_immediate_below_1000 (data : string) (difficulty now : Z) :
  0 <= difficulty < 1000 ->
  simulateProofOfWork data difficulty now = inr (simpleHash (data ++ "0"))
  /\ pow_iterations data (JS.zeros (Z.to_nat (difficulty / 1000)))
                    MAX_ITERATIONS 0 = 1%nat.
Proof.
  intros H. unfold simulateProofOfWork.
  rewrite (Z.div_small difficulty 1000) by lia.
  assert (MAX_ITERATIONS = S (Z.to_nat 9999)) as ->
      by (unfold MAX_ITERATIONS; lia).
  assert (forall h, JS.startsWith h EmptyString = true) as Hempty
      by (intros []; reflexivity).
  change (JS.repeat0 0) with (@inr JS.Thrown string EmptyString).
  change (JS.zeros (Z.to_nat 0)) with EmptyString.
  cbn [pow_loop pow_iterations]. rewrite Hempty. split; reflexivity.
Qed.

Lemma search_immediate_below_1000_witness :
  0 <= 999 < 1000
  /\ simulateProofOfWork "abc" 999 7 = inr (simpleHash ("abc" ++ "0")).
Proof.
  assert (0 <= 999 < 1000) as H by lia.
  split; [exact H|]. exact (proj1 (search_immediate_below_1000 "abc" 999 7 H)).
Defined.

End Hash.

(** ** What the strategies and the cascade guarantee *)

Section Guarantees.

Import AngryCAPTCHA.

Ltac outcome :=
  repeat match goal with
         | H : Some _ = Some _ |- _ => injection H as H
         | H : (_, _) = (_, _) |- _ => injection H as ? H
         | H : None = Some _ |- _ => discriminate H
         | H : Async.Fulfilled _ = Async.Rejected _ |- _ => discriminate H
         | H : context [match ?x with _ => _ end] |- _ => destruct x eqn:?
         end.

Lemma solveCaptchaWithHttp_never_rejects fetch challenge :
  never_rejects (solveCaptchaWithHttp fetch challenge).
Proof.
  intros t t' e H.
  unfold solveCaptchaWithHttp, Async.try_catch, Async.bind, Async.throw,
    Async.ret, Async.now in H.
  outcome.
Qed.

Lemma solveCaptchaWithApiSimulation_never_rejects challenge :
  never_rejects (solveCaptchaWithApiSimulation challenge).
Proof.
  intros t t' e H.
  unfold solveCaptchaWithApiSimulation, Async.try_catch, Async.bind,
    Async.throw, Async.ret, Async.now, Async.delay in H.
  outcome.
Qed.

Lemma solveCaptchaWithPuppeteer_never_rejects engine config challenge :
  never_rejects (solveCaptchaWithPuppeteer engine config challenge).
Proof.
  intros t t' e H. unfold solveCaptchaWithPuppeteer in H.
  destruct (initBrowser engine config t) as [[t1 [[]|e1]]|]; [| |discriminate].
  - destruct (newPage engine t1) as [[t2 [[]|e2]]|]; [| |discriminate].
    + unfold Async.bind at 1 in H.
      match type of H with
      | context [Async.try_catch ?body ?handler t2] =>
          assert (forall t3 e3,
                     Async.try_catch body handler t2
                     <> Some (t3, Async.Rejected e3)) as Hbody;
            [|destruct (Async.try_catch body handler t2)
                as [[t3 [r3|e3]]|] eqn:E;
              [| exact (Hbody _ _ eq_refl) | discriminate]]
      end.
      { intros t3 e3 Hb. unfold Async.try_catch in Hb.
        match type of Hb with
        | context [Async.bind ?m ?k t2] =>
            destruct (Async.bind m k t2) as [[t4 [r4|e4]]|];
              [discriminate| |discriminate]
        end.
        unfold Async.bind, Async.now, Async.ret in Hb. discriminate. }
      unfold Async.bind, Async.try_catch, Async.ret in H.
      destruct (closePage engine t3) as [[t6 [[]|e6]]|]; discriminate.
    + unfold Async.bind, Async.now, Async.ret in H. discriminate.
  - unfold Async.bind, Async.now, Async.ret in H. discriminate.
Qed.

(** X5. Every top-level strategy turns its errors into a failure result:
    the promise of the browser strategy, of the HTTP fallback and of the
    simulation is never rejected, whatever the engine and the network do. *)
Theorem strategy_never_rejects
        (w : World) (config : SolverConfig) (challenge : CaptchaChallenge)
        (name : StrategyName) :
  never_rejects (strategy w config challenge name).
Proof.
  destruct name; simpl.
  - apply solveCaptchaWithPuppeteer_never_rejects.
  - apply solveCaptchaWithHttp_never_rejects.
  - apply solveCaptchaWithApiSimulation_never_rejects.
Qed.

Lemma truthy_append_r (a b : string) :
  JS.truthy_string b = true -> JS.truthy_string (a ++ b) = true.
Proof. destruct a; [auto|reflexivity]. Qed.

Lemma token_truthy prefix workValue timestamp :
  JS.truthy_string (token prefix workValue timestamp) = true.
Proof. unfold token. now apply truthy_append_r. Qed.

(** X6. The simulation strategy cannot fail: 2000 ms after it is called it
    fulfils with a successful result of method fallback, whose token is the
    first 16 characters of the site key, the hash of the widget data and the
    time of completion, joined by dots, and whose form data carry that token
    and the site key. *)
Theorem apiSimulation_always_succeeds (challenge : CaptchaChallenge) (t : Z) :
  let widgetData :=
    {| widget_sitekey := sitekey challenge;
       widget_timestamp := t;
       widget_difficulty := JS.or_number (difficulty challenge) 1;
       widget_lang := JS.or_string (lang challenge) "en" |} in
  let solution :=
    JS.substring0 16 (sitekey challenge) ++ "."
      ++ simpleHash (stringify widgetData) ++ "." ++ JS.toString (t + 2000) in
  solveCaptchaWithApiSimulation challenge t
  = Some (t + 2000,
          Async.Fulfilled
            {| success := true;
               result_solution :=
                 Some {| solution := solution;
                         timestamp := t + 2000;
                         solveTime := 2000;
                         method := fallback;
                         debugInfo := Some (ApiSimulationInfo widgetData) |};
               error := None;
               formData := Some [ ("frc-captcha-solution", solution);
                                  ("frc-captcha-sitekey", sitekey challenge) ];
               result_solveTime := Some 2000 |}).
Proof.
  intros widgetData solution.
  unfold solveCaptchaWithApiSimulation, Async.try_catch, Async.bind,
    Async.delay, Async.now, Async.ret.
  change (Async.timer_delay 2000) with 2000.
  fold widgetData.
  change (generateMockSolution widgetData (t + 2000)) with solution.
  assert (JS.truthy_string solution = true) as -> by apply token_truthy.
  replace (t + 2000 - t) with 2000 by lia. reflexivity.
Qed.

Lemma timer_delay_positive ms : 1 <= Async.timer_delay ms.
Proof.
  unfold Async.timer_delay.
  destruct (ms <? 1) eqn:E1; destruct (2147483647 <? ms) eqn:E2; simpl; lia.
Qed.

Lemma raced_by_deadline {A} (attempt : Async.Async A) ms t t' outcome :
  raced attempt ms t = Some (t', outcome) -> t' <= t + Async.timer_delay ms.
Proof.
  unfold raced, createTimeout, Async.race.
  destruct (attempt t) as [[tp op]|].
  - destruct (tp <=? t + Async.timer_delay ms) eqn:E; intros [= <- _]; lia.
  - intros [= <- _]. lia.
Qed.


Lemma cascade_deadline ms startTime n rest :
  forall i lastError t log run,
    cascade ms startTime n i rest lastError t log = Some run ->
    finished run <= t + Z.of_nat (length rest) * Async.timer_delay ms
    /\ result_solveTime (result run) = Some (finished run - startTime).
Proof.
  pose proof (timer_delay_positive ms) as Hpos.
  induction rest as [|attempt rest IH]; intros i lastError t log run.
  - rewrite cascade_end. intros [= <-]. simpl. split; [lia|reflexivity].
  - cbn [cascade].
    destruct (raced attempt ms t) as [[t' [r|e]]|] eqn:E; [| |discriminate].
    + pose proof (raced_by_deadline _ _ _ _ _ E) as Ht'.
      destruct (success r).
      * intros [= <-]. cbn [finished result with_solveTime result_solveTime length].
        split; [nia|reflexivity].
      * intros H. destruct (IH _ _ _ _ _ H) as [Hb Hs].
        split; [|exact Hs]. cbn [length]. nia.
    + pose proof (raced_by_deadline _ _ _ _ _ E) as Ht'.
      intros H. destruct (IH _ _ _ _ _ H) as [Hb Hs].
      split; [|exact Hs]. cbn [length]. nia.
Qed.


Lemma cascade_sure_winner ms startTime n rest :
  Exists (always_wins ms) rest ->
  forall i lastError t log,
  exists run,
    cascade ms startTime n i rest lastError t log = Some run
    /\ success (result run) = true.
Proof.
  induction 1 as [attempt rest Hwin | attempt rest _ IH];
    intros i lastError t log.
  - destruct (Hwin t) as (t' & r & Hrace & Hr).
    rewrite (cascade_success _ _ _ _ _ _ _ _ _ _ _ Hrace Hr).
    eexists. split; [reflexivity|]. exact Hr.
  - destruct (raced_settles attempt ms t) as (t' & [r|e] & Hrace).
    + destruct (success r) eqn:Hr.
      * rewrite (cascade_success _ _ _ _ _ _ _ _ _ _ _ Hrace Hr).
        eexists. split; [reflexivity|]. exact Hr.
      * rewrite (cascade_returned_failure _ _ _ _ _ _ _ _ _ _ _ Hrace Hr).
        apply IH.
    + rewrite (cascade_rejected _ _ _ _ _ _ _ _ _ _ _ Hrace). apply IH.
Qed.

Lemma strategy_names_length config : (length (strategy_names config) <= 3)%nat.
Proof.
  unfold strategy_names.
  destruct (enablePuppeteer config), (enableHttpFallback config); simpl; lia.
Qed.

Lemma solveCaptcha_cascade w challenge st t run st' :
  solveCaptcha w challenge st t = Some (run, st') ->
  let config := fst (getConfig (host w) st) in
  exists platform,
    cascade (timeout config) t
            (length (map (strategy w config challenge) (strategy_names config)))
            0 (map (strategy w config challenge) (strategy_names config))
            EmptyString t [Starting platform] = Some run.
Proof.
  rewrite solveCaptcha_unfold. cbv zeta. unfold solveCaptchaWith.
  match goal with
  | |- context [cascade ?ms ?start ?len ?first ?rest ?e ?t0 [Starting ?p]] =>
      destruct (cascade ms start len first rest e t0 [Starting p])
        as [run0|] eqn:E; [|discriminate];
      intros [= <- _]; exists p; exact E
  end.
Qed.

Lemma cascade_returns ms startTime n rest :
  forall i lastError t log,
  exists run, cascade ms startTime n i rest lastError t log = Some run.
Proof.
  induction rest as [|attempt rest IH]; intros i lastError t log.
  - rewrite cascade_end. eauto.
  - destruct (raced_settles attempt ms t) as (t' & [r|e] & Hrace).
    + destruct (success r) eqn:Hr.
      * rewrite (cascade_success _ _ _ _ _ _ _ _ _ _ _ Hrace Hr). eauto.
      * rewrite (cascade_returned_failure _ _ _ _ _ _ _ _ _ _ _ Hrace Hr).
        apply IH.
    + rewrite (cascade_rejected _ _ _ _ _ _ _ _ _ _ _ Hrace). apply IH.
Qed.

Lemma solveCaptcha_returns w challenge st t :
  exists run st', solveCaptcha w challenge st t = Some (run, st').
Proof.
  rewrite solveCaptcha_unfold. cbv zeta. unfold solveCaptchaWith.
  match goal with
  | |- context [cascade ?ms ?start ?len ?first ?rest ?e ?t0 ?log] =>
      destruct (cascade_returns ms start len rest first e t0 log) as [run Hrun]
  end.
  exists run. eexists.
  exact (f_equal (fun o : option Run =>
                    match o with
                    | Some run => Some (run, _)
                    | None => None
                    end) Hrun).
Qed.

(** X7. [solveCaptcha] returns no later than the number of strategies (at
    most three) times the timer of the budget after it is called, and the
    solve time of its result, successful or not, is the time elapsed since
    the call. *)
Theorem solveCaptcha_deadline
        (w : World) (challenge : CaptchaChallenge) (st : Statics) (t : Z) :
  let config := fst (getConfig (host w) st) in
  exists run st',
    solveCaptcha w challenge st t = Some (run, st')
    /\ finished run
       <= t + Z.of_nat (length (strategy_names config))
              * Async.timer_delay (timeout config)
    /\ finished run <= t + 3 * Async.timer_delay (timeout config)
    /\ result_solveTime (result run) = Some (finished run - t).
Proof.
  intros config.
  destruct (solveCaptcha_returns w challenge st t) as (run & st' & Hrun).
  exists run, st'. split; [exact Hrun|].
  destruct (solveCaptcha_cascade _ _ _ _ _ _ Hrun) as (platform & Hc).
  fold config in Hc.
  destruct (cascade_deadline _ _ _ _ _ _ _ _ _ Hc) as [Hb Hs].
  rewrite length_map in Hb.
  pose proof (strategy_names_length config).
  pose proof (timer_delay_positive (timeout config)).
  repeat split; auto. nia.
Qed.

End Guarantees.

(** ** What the library's own configuration guarantees *)

Section OwnConfiguration.

Import AngryCAPTCHA.


(** X9. [getConfig] is memoized as the profiler is: a second call returns
    the configuration of the first call and leaves the statics as they are,
    whatever the host has become in between. *)
Theorem getConfig_memoized (h1 h2 : Host) (st : Statics) :
  getConfig h2 (snd (getConfig h1 st)) = getConfig h1 st.
Proof.
  unfold getConfig at 2 3.
  destruct (solverConfig st) as [config|] eqn:E.
  - simpl. unfold getConfig. now rewrite E.
  - destruct (detectEnvironment h1 st) as [env st1]. reflexivity.
Qed.

Lemma getConfig_coherent h st :
  coherent st -> coherent (snd (getConfig h st)).
Proof.
  unfold coherent, getConfig.
  destruct (solverConfig st) as [config|] eqn:E.
  - simpl. now rewrite E.
  - intros _. pose proof (detectEnvironment_caches h st) as Hc.
    destruct (detectEnvironment h st) as [env st1]. simpl in *.
    exists env. auto.
Qed.

Lemma detectEnvironment_coherent h st :
  coherent st -> coherent (snd (detectEnvironment h st)).
Proof.
  intros C. unfold detectEnvironment.
  destruct (environmentInfo st) as [info|] eqn:E; [exact C|].
  unfold coherent in *. simpl.
  destruct (solverConfig st) as [config|]; [|exact I].
  destruct C as (env & Henv & _). congruence.
Qed.

Lemma reachable_is_coherent st : reachable st -> coherent st.
Proof.
  induction 1 as [|h st _ IH|h st _ IH].
  - exact I.
  - now apply detectEnvironment_coherent.
  - now apply getConfig_coherent.
Qed.

Lemma getConfig_derived h st :
  coherent st -> exists env, fst (getConfig h st) = deriveConfig env.
Proof.
  unfold coherent, getConfig.
  destruct (solverConfig st) as [config|].
  - intros (env & _ & ->). simpl. eauto.
  - intros _. destruct (detectEnvironment h st) as [env st1]. simpl. eauto.
Qed.

(** X10. In the statics that the library itself can have produced, a
    cached configuration is the one derived from the cached profile; so the
    configuration that [getConfig] hands out has a budget of 20000 or 30000
    ms and enables anti-detection exactly with the shorter one. *)
Theorem reachable_coherent (h : Host) (st : Statics) :
  reachable st ->
  coherent st
  /\ let config := fst (getConfig h st) in
     (timeout config = 20000 /\ enableAntiDetection config = true
      \/ timeout config = 30000 /\ enableAntiDetection config = false).
Proof.
  intros R. pose proof (reachable_is_coherent st R) as C.
  split; [exact C|]. cbv zeta.
  destruct (getConfig_derived h st C) as [env ->].
  simpl. destruct (isProduction env); auto.
Qed.

Lemma reachable_coherent_witness :
  reachable initial_statics
  /\ coherent (snd (getConfig quiet_host initial_statics)).
Proof.
  split; [exact reachable_initial|].
  exact (proj1 (reachable_coherent quiet_host _
                  (reachable_config quiet_host _ reachable_initial))).
Defined.

Lemma apiSimulation_settles challenge t :
  exists r,
    solveCaptchaWithApiSimulation challenge t
    = Some (t + 2000, Async.Fulfilled r)
    /\ success r = true.
Proof.
  unfold solveCaptchaWithApiSimulation, Async.try_catch, Async.bind,
    Async.delay, Async.now, Async.ret.
  change (Async.timer_delay 2000) with 2000.
  unfold generateMockSolution. cbv zeta.
  rewrite token_truthy. eexists. split; reflexivity.
Qed.

Lemma apiSimulation_wins env challenge :
  always_wins (timeout (deriveConfig env))
              (solveCaptchaWithApiSimulation challenge).
Proof.
  intros t. destruct (apiSimulation_settles challenge t) as (r & Hr & Hs).
  exists (t + 2000), r. split; [|exact Hs].
  unfold raced, createTimeout, Async.race. rewrite Hr.
  assert ((t + 2000 <=? t + Async.timer_delay (timeout (deriveConfig env)))
          = true) as ->; [|reflexivity].
  apply Z.leb_le. cbn [timeout deriveConfig].
  destruct (isProduction env);
    [change (Async.timer_delay 20000) with 20000
    |change (Async.timer_delay 30000) with 30000]; lia.
Qed.

Lemma reachable_solve_success w challenge st t run st' :
  reachable st ->
  solveCaptcha w challenge st t = Some (run, st') ->
  success (result run) = true.
Proof.
  intros R Hrun.
  destruct (solveCaptcha_cascade _ _ _ _ _ _ Hrun) as (platform & Hc).
  set (config := fst (getConfig (host w) st)) in *.
  set (strategies := map (strategy w config challenge) (strategy_names config)) in *.
  assert (Exists (always_wins (timeout config)) strategies) as Hwin.
  { apply List.Exists_exists.
    exists (solveCaptchaWithApiSimulation challenge). split.
    - apply in_map_iff. exists ApiSimulation. split; [reflexivity|].
      apply strategy_names_fallback.
      apply (getConfig_fallback (host w) st), reachable_fallback_enabled, R.
    - destruct (getConfig_derived (host w) st (reachable_is_coherent st R))
        as [env Henv].
      unfold config. rewrite Henv. apply apiSimulation_wins. }
  destruct (cascade_sure_winner _ t (length strategies) _ Hwin
              0%nat EmptyString t [Starting platform]) as (run' & Hc' & Hs).
  congruence.
Qed.

Lemma solveCaptcha_result_exactly_one w challenge st t run st' :
  solveCaptcha w challenge st t = Some (run, st') -> exactly_one (result run).
Proof.
  intros Hrun.
  destruct (solveCaptcha_cascade _ _ _ _ _ _ Hrun) as (platform & Hc).
  set (config := fst (getConfig (host w) st)) in *.
  set (strategies := map (strategy w config challenge) (strategy_names config)) in *.
  assert (Forall well_behaved strategies) as Hall.
  { apply List.Forall_forall. intros s Hin.
    apply in_map_iff in Hin as (name & <- & _).
    apply strategy_well_behaved. }
  destruct (cascade_exactly_one (timeout config) t (length strategies) _ Hall
              0%nat EmptyString t [Starting platform]) as (run' & Hc' & Hone).
  congruence.
Qed.

(** X11. Under the library's own configuration [solveCaptcha] cannot fail:
    from any statics that the library can have produced it returns a
    successful result that carries a solution, because the simulation
    strategy is always in the list and always wins its race. *)
Theorem solveCaptcha_always_succeeds
        (w : World) (challenge : CaptchaChallenge) (st : Statics) (t : Z) :
  reachable st ->
  exists run st',
    solveCaptcha w challenge st t = Some (run, st')
    /\ success (result run) = true
    /\ is_Some (result_solution (result run))
    /\ error (result run) = None.
Proof.
  intros R.
  destruct (solveCaptcha_returns w challenge st t) as (run & st' & Hrun).
  exists run, st'. split; [exact Hrun|].
  pose proof (reachable_solve_success _ _ _ _ _ _ R Hrun) as Hs.
  destruct (solveCaptcha_result_exactly_one _ _ _ _ _ _ Hrun) as [H1 H2].
  split; [exact Hs|]. split; [now apply H1|].
  destruct (error (result run)) eqn:E; [|reflexivity].
  assert (success (result run) = false) by (apply H2; eauto). congruence.
Qed.

Lemma solveCaptcha_always_succeeds_witness :
  reachable initial_statics
  /\ exists run st',
       solveCaptcha offline_world sample_challenge initial_statics 0
       = Some (run, st')
       /\ success (result run) = true
       /\ is_Some (result_solution (result run))
       /\ error (result run) = None.
Proof.
  split; [exact reachable_initial|].
  exact (solveCaptcha_always_succeeds offline_world sample_challenge
           initial_statics 0 reachable_initial).
Defined.

End OwnConfiguration.

(** ** When the browser strategy is used *)

Section Browser.

Import AngryCAPTCHA.

Lemma serverless_variables_unset h :
  Forall (fun name => env_set h name = false) serverless_variables
  <-> env_set h "VERCEL" = false
      /\ env_set h "NETLIFY" = false
      /\ env_set h "AWS_LAMBDA_FUNCTION_NAME" = false
      /\ env_set h "FUNCTION_NAME" = false
      /\ env_set h "CF_PAGES" = false.
Proof.
  unfold serverless_variables.
  rewrite !List.Forall_cons_iff, List.Forall_nil_iff. tauto.
Qed.

Lemma enablePuppeteer_usable h :
  enablePuppeteer (deriveConfig (probeEnvironment h)) = true
  <-> browser_usable h.
Proof.
  unfold browser_usable. rewrite serverless_variables_unset.
  unfold configured_chrome, deriveConfig, probeEnvironment.
  destruct (puppeteer_installed h);
    destruct (env_set h "VERCEL"), (env_set h "NETLIFY"),
      (env_set h "AWS_LAMBDA_FUNCTION_NAME"), (env_set h "FUNCTION_NAME"),
      (env_set h "CF_PAGES"), (env_is h "NODE_ENV" "development"),
      (env_set h "CHROME_PATH"), (env_set h "PUPPETEER_EXECUTABLE_PATH");
    cbn -[env_set getenv env_is];
    repeat match goal with
           | |- context [getenv h ?name] => destruct (getenv h name) as [?path|]
           end;
    cbn -[env_set getenv env_is];
    rewrite ?andb_false_r, ?andb_true_r;
    (split;
     [ intros H; try discriminate H; repeat split; auto
     | intros (H1 & (H2 & H3 & H4 & H5 & H6) & H7);
       try discriminate; auto ]).
Qed.

(** X12. In a fresh process the browser strategy heads the strategy list
    exactly when puppeteer is installed, none of the five serverless
    variables is set and the executable named by CHROME_PATH or
    PUPPETEER_EXECUTABLE_PATH, if one is named, exists; otherwise the list
    is the HTTP fallback followed by the simulation. *)
Theorem browser_strategy_enabled (h : Host) :
  let names := strategy_names (fst (getConfig h initial_statics)) in
  (browser_usable h -> names = [Puppeteer; Http; ApiSimulation])
  /\ (~ browser_usable h -> names = [Http; ApiSimulation]).
Proof.
  cbv zeta.
  change (fst (getConfig h initial_statics))
    with (deriveConfig (probeEnvironment h)).
  pose proof (enablePuppeteer_usable h) as H.
  unfold strategy_names.
  change (enableHttpFallback (deriveConfig (probeEnvironment h))) with true.
  destruct (enablePuppeteer (deriveConfig (probeEnvironment h))).
  - split; [reflexivity|]. intros Hn. exfalso. apply Hn, H. reflexivity.
  - split; [|reflexivity]. intros Hu. apply H in Hu. discriminate.
Qed.

Lemma browser_strategy_enabled_witness :
  ~ browser_usable quiet_host
  /\ strategy_names (fst (getConfig quiet_host initial_statics))
     = [Http; ApiSimulation].
Proof.
  assert (~ browser_usable quiet_host) as H by (intros [H _]; discriminate).
  split; [exact H|]. exact (proj2 (browser_strategy_enabled quiet_host) H).
Defined.

Lemma cached_profile_configures h h' st :
  reachable st ->
  environmentInfo st = Some (probeEnvironment h) ->
  detectEnvironment h' st = (probeEnvironment h, st)
  /\ fst (getConfig h' st) = deriveConfig (probeEnvironment h).
Proof.
  intros R He. split.
  - unfold detectEnvironment. now rewrite He.
  - pose proof (reachable_is_coherent st R) as C.
    unfold coherent in C. unfold getConfig, detectEnvironment.
    destruct (solverConfig st) as [config|].
    + destruct C as (env & Henv & ->). simpl. congruence.
    + rewrite He. reflexivity.
Qed.

(** X13. The profile is probed once, on the host [h] of the first call, and
    [initBrowser] reads it from the cache; the executable is read from the
    environment again when the browser is launched, on the host [h'] of that
    moment. When the probe found the browser usable, the launch goes ahead
    with the profile and the configuration of [h], and the launch options
    name the path that CHROME_PATH or PUPPETEER_EXECUTABLE_PATH holds on
    [h'], which the probe need not have seen: it is a path that the probe
    checked to exist when the two variables name on [h'] the path that they
    named on [h]. The hardening flags of production and the anti-detection
    flags are passed together or not at all. *)
Theorem launch_executable_path (h h' : Host) (st : Statics) :
  reachable st ->
  environmentInfo st = Some (probeEnvironment h) ->
  browser_usable h ->
  let env := fst (detectEnvironment h' st) in
  let config := fst (getConfig h' (snd (detectEnvironment h' st))) in
  let options := Launch.launchOptions h' env config in
  env = probeEnvironment h
  /\ config = deriveConfig env
  /\ enablePuppeteer config = true
  /\ Launch.executablePath options = configured_chrome h'
  /\ (configured_chrome h' = configured_chrome h ->
      forall path,
        Launch.executablePath options = Some path -> existsSync h path = true)
  /\ Launch.args options
     = (Launch.baseArgs
          ++ (if isProduction env
              then Launch.productionArgs ++ Launch.antiDetectionArgs
              else []))%list.
Proof.
  intros R He Hu env config options.
  destruct (cached_profile_configures h h' st R He) as [Hd Hc].
  assert (env = probeEnvironment h) as Eenv by (unfold env; now rewrite Hd).
  assert (config = deriveConfig env) as Econfig
      by (unfold config; rewrite Hd, Eenv; exact Hc).
  assert (enablePuppeteer config = true) as Eon
      by (rewrite Econfig, Eenv; now apply enablePuppeteer_usable).
  destruct Hu as (Hp & Hs & Hchecked).
  apply serverless_variables_unset in Hs as (H1 & H2 & H3 & H4 & H5).
  assert (Launch.executablePath options = configured_chrome h') as E.
  { unfold options, Launch.launchOptions, Launch.executablePath.
    rewrite Eenv. unfold probeEnvironment. rewrite Hp, H1, H2, H3, H4, H5.
    unfold configured_chrome. cbn -[env_set getenv env_is].
    destruct (env_is h "NODE_ENV" "development");
      cbn -[env_set getenv env_is];
      destruct (env_set h' "CHROME_PATH");
      destruct (env_set h' "PUPPETEER_EXECUTABLE_PATH");
      reflexivity. }
  repeat split; try assumption.
  - intros Hsame path Hpath. rewrite E, Hsame in Hpath.
    now rewrite Hpath in Hchecked.
  - unfold options, Launch.launchOptions, Launch.args.
    rewrite Econfig. cbn [enableAntiDetection deriveConfig].
    destruct (isProduction env); now rewrite ?app_nil_r.
Qed.

Lemma launch_executable_path_witness :
  let h := {| process_env := {[ "CHROME_PATH" := "/opt/chrome" ]};
              puppeteer_installed := true;
              existsSync := String.eqb "/opt/chrome" |} in
  let h' := {| process_env := {[ "CHROME_PATH" := "/opt/moved" ]};
               puppeteer_installed := true;
               existsSync := String.eqb "/opt/chrome" |} in
  let st := snd (getConfig h initial_statics) in
  reachable st
  /\ environmentInfo st = Some (probeEnvironment h)
  /\ browser_usable h
  /\ Launch.executablePath
       (Launch.launchOptions
          h' (fst (detectEnvironment h' st))
          (fst (getConfig h' (snd (detectEnvironment h' st)))))
     = Some "/opt/moved"
  /\ existsSync h "/opt/moved" = false
  /\ existsSync h' "/opt/moved" = false.
Proof.
  intros h h' st.
  assert (reachable st) as R
      by exact (reachable_config h _ reachable_initial).
  assert (environmentInfo st = Some (probeEnvironment h)) as He
      by reflexivity.
  assert (browser_usable h) as Hu.
  { split; [reflexivity|]. split; [|reflexivity].
    repeat constructor. }
  split; [exact R|]. split; [exact He|]. split; [exact Hu|].
  split; [|split; reflexivity].
  exact (proj1 (proj2 (proj2 (proj2 (launch_executable_path h h' st R He Hu))))).
Defined.

End Browser.

(** ** The HTTP fallback *)

Section HttpFallback.

Import AngryCAPTCHA.

(** X14. The HTTP fallback consults the network at one address only, the
    puzzle endpoint of the challenge when it is a non-empty string and the
    default endpoint with the site key otherwise (two networks that agree
    there give the same run); and a response that is not ok makes it fail
    with the text Failed to fetch puzzle: <status>. *)
Theorem http_fallback_one_request
        (fetch fetch' : string -> Async.Async Response)
        (challenge : CaptchaChallenge) (t : Z) :
  (fetch' (puzzle_url challenge) = fetch (puzzle_url challenge) ->
   solveCaptchaWithHttp fetch' challenge t = solveCaptchaWithHttp fetch challenge t)
  /\ (forall t1 response,
         fetch (puzzle_url challenge) t = Some (t1, Async.Fulfilled response) ->
         ok response = false ->
         solveCaptchaWithHttp fetch challenge t
         = Some (t1, Async.Fulfilled
                       (failure ("Failed to fetch puzzle: "
                                   ++ JS.toString (status response))
                                (t1 - t)))).
Proof.
  split.
  - intros H. unfold solveCaptchaWithHttp, Async.try_catch, Async.bind.
    fold (puzzle_url challenge). now rewrite H.
  - intros t1 response H Hok.
    unfold solveCaptchaWithHttp, Async.try_catch, Async.bind.
    fold (puzzle_url challenge). rewrite H, Hok. reflexivity.
Qed.

Lemma http_fallback_one_request_witness :
  let fetch : string -> Async.Async Response :=
    fun _ t => Some (t + 3, Async.Fulfilled
                              {| ok := false; status := 503; json := never |}) in
  solveCaptchaWithHttp fetch sample_challenge 10
  = Some (13, Async.Fulfilled (failure "Failed to fetch puzzle: 503" 3)).
Proof.
  intros fetch.
  exact (proj2 (http_fallback_one_request fetch fetch sample_challenge 10)
               13 {| ok := false; status := 503; json := never |}
               eq_refl eq_refl).
Defined.

(** X15. The HTTP fallback succeeds exactly when the request is fulfilled
    with an ok response whose body is a puzzle with non-empty data for which
    the work value can be computed; its solution is then the token made of
    the first 16 characters of the data, the work value and the time of
    completion, with method fallback, and its form data carry the token and
    the site key. *)
Theorem http_fallback_success
        (fetch : string -> Async.Async Response)
        (challenge : CaptchaChallenge) (t t' : Z) (r : CaptchaSolveResult) :
  solveCaptchaWithHttp fetch challenge t = Some (t', Async.Fulfilled r)
  /\ success r = true
  <-> exists t1 response puzzle d workValue,
        fetch (puzzle_url challenge) t = Some (t1, Async.Fulfilled response)
        /\ ok response = true
        /\ json response t1 = Some (t', Async.Fulfilled (Some puzzle))
        /\ data puzzle = Some d
        /\ d <> EmptyString
        /\ simulateProofOfWork d (JS.or_number (puzzle_difficulty puzzle) 1000) t'
           = inr workValue
        /\ let solution :=
             JS.substring0 16 d ++ "." ++ workValue ++ "." ++ JS.toString t' in
           r = {| success := true;
                  result_solution :=
                    Some {| solution := solution;
                            timestamp := t';
                            solveTime := t' - t;
                            method := fallback;
                            debugInfo := Some (HttpFallbackInfo puzzle) |};
                  error := None;
                  formData := Some [ ("frc-captcha-solution", solution);
                                     ("frc-captcha-sitekey", sitekey challenge) ];
                  result_solveTime := Some (t' - t) |}.
Proof.
  unfold solveCaptchaWithHttp, Async.try_catch, Async.bind, Async.throw,
    Async.ret, Async.now.
  fold (puzzle_url challenge). split.
  - intros [H Hs].
    destruct (fetch (puzzle_url challenge) t) as [[t1 [response|e]]|] eqn:Hf;
      [| |discriminate].
    2: { injection H as _ <-. discriminate. }
    destruct (ok response) eqn:Hok; simpl in H.
    2: { injection H as _ <-. discriminate. }
    destruct (json response t1) as [[t2 [puzzleData|e]]|] eqn:Hj;
      [| |discriminate].
    2: { injection H as _ <-. discriminate. }
    unfold solvePuzzleHttp in H.
    destruct puzzleData as [puzzle|].
    2: { injection H as _ <-. discriminate. }
    destruct (data puzzle) as [d|] eqn:Hd.
    2: { injection H as _ <-. discriminate. }
    destruct (JS.truthy_string d) eqn:Hd'.
    2: { injection H as _ <-. discriminate. }
    destruct (simulateProofOfWork d _ t2) as [e|workValue] eqn:Hw.
    { injection H as _ <-. discriminate. }
    rewrite token_truthy in H. injection H as <- <-.
    exists t1, response, puzzle, d, workValue.
    repeat split; auto. intros ->. discriminate.
  - intros (t1 & response & puzzle & d & workValue
            & Hf & Hok & Hj & Hd & Hne & Hw & ->).
    rewrite Hf, Hok. cbn [negb]. rewrite Hj.
    unfold solvePuzzleHttp. rewrite Hd.
    destruct d as [|c d]; [congruence|]. cbn [JS.truthy_string].
    rewrite Hw, token_truthy. split; reflexivity.
Qed.

Lemma http_fallback_success_witness :
  exists r,
    solveCaptchaWithHttp puzzle_fetch sample_challenge 100
    = Some (142, Async.Fulfilled r)
    /\ success r = true.
Proof.
  eexists.
  apply (proj2 (http_fallback_success puzzle_fetch sample_challenge 100 142 _)).
  exists 140, {| ok := true; status := 200;
                 json := fun t1 => Some (t1 + 2, Async.Fulfilled (Some sample_puzzle)) |},
         sample_puzzle, "abcdefghijklmnopqrstuvwxyz", "15cdafdd".
  repeat split; try reflexivity. discriminate.
Defined.

End HttpFallback.

(** ** Detection against extraction *)

Section Guard.

Import AngryCAPTCHA.

Lemma append_nil_r_string (s : string) : s ++ EmptyString = s.
Proof. induction s as [|c s IH]; [reflexivity|]. now rewrite append_cons, IH. Qed.

Lemma contains_cons c markup indicator :
  contains_ignoring_case markup indicator ->
  contains_ignoring_case (String c markup) indicator.
Proof.
  intros (before & found & after & -> & H).
  exists (String c before), found, after. split; [reflexivity|exact H].
Qed.

Lemma contains_append before markup after indicator :
  contains_ignoring_case markup indicator ->
  contains_ignoring_case (before ++ markup ++ after) indicator.
Proof.
  intros (b & found & a & -> & H).
  exists (before ++ b), found, (a ++ after). split; [|exact H].
  now rewrite !append_assoc.
Qed.

Lemma greedy_suffix a k s cap r :
  Regex.greedy a k s cap = Some r ->
  exists before s' cap', s = before ++ s' /\ k s' cap' = Some r.
Proof.
  revert cap. induction s as [|c s IH]; intros cap; simpl.
  - intros H. exists EmptyString, EmptyString, cap. auto.
  - destruct (Regex.atom_matches a c).
    + destruct (Regex.greedy a k s (Regex.push c cap)) as [r'|] eqn:E.
      * intros [= <-]. destruct (IH _ E) as (before & s' & cap' & -> & H).
        exists (String c before), s', cap'. auto.
      * intros H. exists EmptyString, (String c s), cap. auto.
    + intros H. exists EmptyString, (String c s), cap. auto.
Qed.

Lemma match_here_lit key p :
  forall s cap r,
    Regex.match_here (Regex.lit key ++ p)%list s cap = Some r ->
    exists found rest cap',
      s = found ++ rest
      /\ JS.toLowerCase found = JS.toLowerCase key
      /\ Regex.match_here p rest cap' = Some r.
Proof.
  induction key as [|c key IH]; intros s cap r.
  - intros H. exists EmptyString, s, cap. auto.
  - change (Regex.lit (String c key) ++ p)%list
      with (Regex.Item (Regex.Lit c) Regex.Once :: (Regex.lit key ++ p))%list.
    cbn [Regex.match_here].
    destruct s as [|d s]; [discriminate|].
    cbn [Regex.atom_matches].
    destruct (Ascii.eqb (JS.lower_ascii c) (JS.lower_ascii d)) eqn:E;
      [|discriminate].
    apply Ascii.eqb_eq in E. intros H.
    destruct (IH _ _ _ H) as (found & rest & cap' & -> & Hl & Hm).
    exists (String d found), rest, cap'. simpl. rewrite Hl, E. auto.
Qed.

Lemma match_here_contains earlier key later :
  forall s cap r,
    Regex.match_here (earlier ++ Regex.lit key ++ later)%list s cap = Some r ->
    contains_ignoring_case s key.
Proof.
  induction earlier as [|n earlier IH]; intros s cap r.
  - intros H. apply match_here_lit in H as (found & rest & _ & -> & Hl & _).
    exists EmptyString, found, rest. auto.
  - destruct n as [a [| |]| |]; simpl.
    + destruct s as [|c s]; [discriminate|].
      destruct (Regex.atom_matches a c); [|discriminate].
      intros H. apply contains_cons. eapply IH, H.
    + intros H. apply greedy_suffix in H as (before & s' & cap' & -> & H).
      rewrite <- (append_nil_r_string s').
      apply contains_append. eapply IH, H.
    + destruct s as [|c s]; [discriminate|].
      destruct (Regex.atom_matches a c); [|discriminate].
      intros H. apply greedy_suffix in H as (before & s' & cap' & -> & H).
      apply contains_cons.
      rewrite <- (append_nil_r_string s').
      apply contains_append. eapply IH, H.
    + apply IH.
    + apply IH.
Qed.

Lemma exec_suffix p s r :
  Regex.exec p s = Some r ->
  exists before s',
    s = before ++ s' /\ Regex.match_here p s' Regex.Unopened = Some r.
Proof.
  induction s as [|c s IH]; simpl.
  - destruct (Regex.match_here p EmptyString Regex.Unopened) eqn:E;
      [|discriminate].
    intros [= <-]. exists EmptyString, EmptyString. auto.
  - destruct (Regex.match_here p (String c s) Regex.Unopened) eqn:E.
    + intros [= <-]. exists EmptyString, (String c s). auto.
    + intros H. destruct (IH H) as (before & s' & -> & Hm).
      exists (String c before), s'. auto.
Qed.

Lemma match1_contains earlier key later html value :
  Regex.match1 html (earlier ++ Regex.lit key ++ later)%list = Some value ->
  contains_ignoring_case html key.
Proof.
  unfold Regex.match1.
  destruct (Regex.exec _ html) as [r|] eqn:E; [|discriminate]. intros _.
  apply exec_suffix in E as (before & s' & -> & H).
  rewrite <- (append_nil_r_string s').
  apply contains_append. eapply match_here_contains, H.
Qed.

Lemma containsCaptcha_indicator html indicator :
  In indicator indicators ->
  contains_ignoring_case html indicator ->
  containsCaptcha html = true.
Proof.
  intros Hin H. unfold containsCaptcha. apply existsb_exists.
  exists indicator. split; [exact Hin|]. now apply includes_ignoring_case.
Qed.

(** X16. A page whose site key is found by an attribute pattern
    (data-sitekey, data-fc-sitekey) or by a call pattern (initCaptcha)
    always passes [containsCaptcha]; the property patterns give no such
    assurance: a key is extracted from the markup sitekey: 'k' although
    [containsCaptcha] rejects it. *)
Theorem detection_covers_attribute_patterns :
  (forall p, In p indicator_patterns -> In p sitekey_patterns)
  /\ (forall html p key,
         In p indicator_patterns ->
         Regex.match1 html p = Some key ->
         containsCaptcha html = true)
  /\ (containsCaptcha "sitekey: 'k'" = false
      /\ exists challenge,
           extractCaptchaChallenge "sitekey: 'k'" = Some challenge
           /\ sitekey challenge = "k").
Proof.
  split; [|split].
  - intros p [<-|[<-|[<-|[<-|[]]]]]; simpl; auto 10.
  - intros html p key [<-|[<-|[<-|[<-|[]]]]] H.
    + apply (containsCaptcha_indicator html "data-sitekey"); [simpl; auto|].
      exact (match1_contains [] "data-sitekey" _ html key H).
    + apply (containsCaptcha_indicator html "data-fc-sitekey");
        [simpl; auto 10|].
      exact (match1_contains [] "data-fc-sitekey" _ html key H).
    + apply (containsCaptcha_indicator html "initCaptcha"); [simpl; auto 10|].
      exact (match1_contains
               [] "initCaptcha"
               (Regex.lit "("
                  ++ [Regex.Item (Regex.NoneOf [","%char]) Regex.Plus;
                      Regex.ch ","%char; Regex.spaces; Regex.quote; Regex.Open;
                      Regex.unquoted; Regex.Close; Regex.quote;
                      Regex.ch ")"%char])%list
               html key H).
    + apply (containsCaptcha_indicator html "initCaptcha"); [simpl; auto 10|].
      exact (match1_contains
               (Regex.lit "window." ++ [Regex.Item Regex.Dot Regex.Star]
                  ++ Regex.lit ".")%list
               "initCaptcha"
               (Regex.lit "("
                  ++ [Regex.Item (Regex.NoneOf [","%char]) Regex.Plus;
                      Regex.ch ","%char; Regex.spaces; Regex.quote; Regex.Open;
                      Regex.unquoted; Regex.Close; Regex.quote;
                      Regex.ch ")"%char])%list
               html key H).
  - split; [vm_compute; reflexivity|].
    eexists. split; vm_compute; reflexivity.
Qed.

Lemma detection_covers_attribute_patterns_witness :
  In (Regex.attribute "data-sitekey") indicator_patterns
  /\ Regex.match1 sample_markup (Regex.attribute "data-sitekey") = Some "ABC123"
  /\ containsCaptcha sample_markup = true.
Proof.
  assert (In (Regex.attribute "data-sitekey") indicator_patterns) as Hin
      by (simpl; auto).
  assert (Regex.match1 sample_markup (Regex.attribute "data-sitekey")
          = Some "ABC123") as Hm by (vm_compute; reflexivity).
  split; [exact Hin|]. split; [exact Hm|].
  exact (proj1 (proj2 detection_covers_attribute_patterns)
               sample_markup _ "ABC123" Hin Hm).
Defined.

End Guard.

(** ** The rendered pages *)

Section RenderedPages.

Import AngryCAPTCHA.

Lemma lit_rejects_sound key :
  forall s q tail cap,
    lit_rejects key s = true ->
    Regex.match_here (Regex.lit key ++ q)%list (s ++ tail) cap = None.
Proof.
  induction key as [|c key IH]; intros s q tail cap; [discriminate|].
  destruct s as [|d s]; [discriminate|].
  change (Regex.lit (String c key) ++ q)%list
    with (Regex.Item (Regex.Lit c) Regex.Once :: (Regex.lit key ++ q))%list.
  rewrite append_cons. cbn [Regex.match_here Regex.atom_matches lit_rejects].
  destruct (Ascii.eqb (JS.lower_ascii c) (JS.lower_ascii d)); [|reflexivity].
  apply IH.
Qed.

Lemma exec_skip key q head tail :
  all_reject key head = true ->
  Regex.exec (Regex.lit key ++ q)%list (head ++ tail)
  = Regex.exec (Regex.lit key ++ q)%list tail.
Proof.
  induction head as [|c head IH]; [reflexivity|].
  cbn [all_reject]. intros H. apply andb_prop in H as [H1 H2].
  rewrite append_cons. cbn [Regex.exec]. rewrite <- append_cons.
  rewrite (lit_rejects_sound key _ q tail Regex.Unopened H1).
  now apply IH.
Qed.

Lemma lit_accepts key q s :
  Regex.match_here (Regex.lit key ++ q)%list (key ++ s) Regex.Unopened
  = Regex.match_here q s Regex.Unopened.
Proof.
  induction key as [|c key IH]; [reflexivity|].
  change (Regex.lit (String c key) ++ q)%list
    with (Regex.Item (Regex.Lit c) Regex.Once :: (Regex.lit key ++ q))%list.
  rewrite append_cons. cbn [Regex.match_here Regex.atom_matches Regex.push].
  now rewrite Ascii.eqb_refl.
Qed.

Lemma greedy_run a k text :
  forall acc stop rest r,
    (forall c, In c (list_ascii_of_string text) -> Regex.atom_matches a c = true) ->
    Regex.atom_matches a stop = false ->
    k (String stop rest) (Regex.Opened (acc ++ text)) = Some r ->
    Regex.greedy a k (text ++ String stop rest) (Regex.Opened acc) = Some r.
Proof.
  induction text as [|c text IH]; intros acc stop rest r Hall Hstop Hk.
  - rewrite append_nil_r_string in Hk. simpl. now rewrite Hstop.
  - rewrite append_cons. cbn [Regex.greedy].
    rewrite (Hall c) by (simpl; auto). cbn [Regex.push].
    rewrite (IH (acc ++ String c EmptyString) stop rest r); auto.
    + intros c' Hc'. apply Hall. simpl. auto.
    + now rewrite append_assoc.
Qed.

Lemma unquoted_text_chars text :
  unquoted_text text = true ->
  forall c, In c (list_ascii_of_string text) ->
            Regex.atom_matches (Regex.NoneOf [JS.dquote; Regex.squote]) c = true.
Proof.
  induction text as [|d text IH]; [intros _ c []|].
  cbn [unquoted_text list_ascii_of_string].
  intros H c Hin. apply andb_prop in H as [H1 H2].
  destruct Hin as [<-|Hc]; [exact H1|exact (IH H2 c Hc)].
Qed.

Lemma attribute_reads_value name value rest :
  value <> EmptyString ->
  unquoted_text value = true ->
  Regex.match_here (Regex.attribute name)
                   (Pages.attr name value ++ rest) Regex.Unopened
  = Some (Regex.Closed value).
Proof.
  intros Hne Hq. unfold Pages.attr, Regex.attribute.
  rewrite !append_assoc, lit_accepts.
  destruct value as [|c value]; [congruence|].
  cbn [unquoted_text] in Hq. apply andb_prop in Hq as [Hc Hq].
  change (Regex.match_here
            [Regex.unquoted; Regex.Close; Regex.quote]
            (String c (value ++ Pages.Q ++ rest)) (Regex.Opened EmptyString)
          = Some (Regex.Closed (String c value))).
  cbn [Regex.match_here Regex.unquoted Regex.atom_matches]. rewrite Hc.
  apply (greedy_run _ _ value (String c EmptyString) JS.dquote rest).
  - now apply unquoted_text_chars.
  - reflexivity.
  - reflexivity.
Qed.

Lemma exec_here p s r :
  Regex.match_here p s Regex.Unopened = Some r -> Regex.exec p s = Some r.
Proof. intros H. destruct s; simpl; now rewrite H. Qed.

Lemma containsCaptcha_prefix (markup rest : string) :
  containsCaptcha markup = true -> containsCaptcha (markup ++ rest) = true.
Proof.
  unfold containsCaptcha. rewrite !existsb_exists.
  intros (indicator & Hin & H). exists indicator. split; [exact Hin|].
  apply includes_ignoring_case. apply includes_ignoring_case in H.
  rewrite <- (append_nil_l (markup ++ rest)).
  now apply contains_append.
Qed.

(** X17. The page that [createCaptchaTestPage] renders passes
    [containsCaptcha] for every challenge, and when the site key is not
    empty and holds no quote character the extractor reads the same site
    key back from it. *)
Theorem test_page_round_trip (challenge : CaptchaChallenge) :
  containsCaptcha (Pages.createCaptchaTestPage challenge) = true
  /\ (sitekey challenge <> EmptyString ->
      unquoted_text (sitekey challenge) = true ->
      exists extracted,
        extractCaptchaChallenge (Pages.createCaptchaTestPage challenge)
        = Some extracted
        /\ sitekey extracted = sitekey challenge).
Proof.
  split.
  - unfold Pages.createCaptchaTestPage.
    apply containsCaptcha_prefix. vm_compute. reflexivity.
  - intros Hne Hq.
    assert (Regex.match1 (Pages.createCaptchaTestPage challenge)
                         (Regex.attribute "data-sitekey")
            = Some (sitekey challenge)) as Hm.
    { unfold Regex.match1, Pages.createCaptchaTestPage.
      change (Regex.attribute "data-sitekey")
        with (Regex.lit "data-sitekey="
                ++ [Regex.quote; Regex.Open; Regex.unquoted; Regex.Close;
                    Regex.quote])%list.
      rewrite exec_skip by (vm_compute; reflexivity).
      change (Regex.lit "data-sitekey="
                ++ [Regex.quote; Regex.Open; Regex.unquoted; Regex.Close;
                    Regex.quote])%list
        with (Regex.attribute "data-sitekey").
      rewrite (exec_here _ _ _ (attribute_reads_value
                                  "data-sitekey" (sitekey challenge) _ Hne Hq)).
      destruct (sitekey challenge); [congruence|reflexivity]. }
    unfold extractCaptchaChallenge, sitekey_patterns.
    cbn [extractValue]. rewrite Hm. eexists. split; reflexivity.
Qed.

Lemma test_page_round_trip_witness :
  sitekey sample_challenge <> EmptyString
  /\ unquoted_text (sitekey sample_challenge) = true
  /\ exists extracted,
       extractCaptchaChallenge (Pages.createCaptchaTestPage sample_challenge)
       = Some extracted
       /\ sitekey extracted = sitekey sample_challenge.
Proof.
  assert (sitekey sample_challenge <> EmptyString) as H1 by discriminate.
  assert (unquoted_text (sitekey sample_challenge) = true) as H2 by reflexivity.
  split; [exact H1|]. split; [exact H2|].
  exact (proj2 (test_page_round_trip sample_challenge) H1 H2).
Defined.

End RenderedPages.

(** ** The iframe page and the simplified entry points *)

Section Simple.

Import AngryCAPTCHA.

Lemma count_quotes_app (a b : string) :
  count_quotes (a ++ b) = (count_quotes a + count_quotes b)%nat.
Proof.
  induction a as [|c a IH]; [reflexivity|].
  rewrite append_cons. simpl. rewrite IH. lia.
Qed.

Lemma count_quotes_escaped content :
  count_quotes (Pages.escape_quotes content) = O.
Proof.
  induction content as [|c content IH]; [reflexivity|].
  simpl. destruct (Ascii.eqb c JS.dquote) eqn:E.
  - rewrite count_quotes_app, IH. reflexivity.
  - simpl. now rewrite E, IH.
Qed.

(** X18. The iframe page holds the same twelve double quotes whatever the
    challenge: every double quote of the embedded test page is written as
    &quot;, so the embedded page cannot end the srcdoc attribute. *)
Theorem iframe_page_quotes (challenge : CaptchaChallenge) :
  count_quotes (Pages.escape_quotes (Pages.createCaptchaTestPage challenge)) = O
  /\ count_quotes (Pages.createIframeCaptchaPage challenge) = 12%nat.
Proof.
  split; [apply count_quotes_escaped|].
  unfold Pages.createIframeCaptchaPage. cbv zeta. cbn [String.concat].
  rewrite !count_quotes_app, count_quotes_escaped. reflexivity.
Qed.

Lemma solve_spec w challenge st t :
  exists run st',
    solveCaptcha w challenge st t = Some (run, st')
    /\ SimpleAngryCAPTCHA.solve w challenge st t
       = Some (finished run, result run, st').
Proof.
  destruct (solveCaptcha_returns w challenge st t) as (run & st' & Hrun).
  exists run, st'. split; [exact Hrun|].
  unfold SimpleAngryCAPTCHA.solve. now rewrite Hrun.
Qed.

Lemma exactly_one_refusal message :
  exactly_one (SimpleAngryCAPTCHA.refusal message).
Proof.
  unfold exactly_one, SimpleAngryCAPTCHA.refusal, is_Some. simpl.
  intuition (try discriminate; eauto). destruct H as [? ?]. discriminate.
Qed.

(** X19. In a process that uses the library alone, [solveFromHtml]
    always returns a result that satisfies the invariant, and the result is
    successful exactly when the markup passes [containsCaptcha] and yields
    a challenge; markup that fails the first test is refused at once, with
    the statics untouched. *)
Theorem solveFromHtml_outcome
        (w : World) (html : string) (st : Statics) (t : Z) :
  reachable st ->
  exists t' r st',
    SimpleAngryCAPTCHA.solveFromHtml w html st t = Some (t', r, st')
    /\ exactly_one r
    /\ (success r = true
        <-> containsCaptcha html = true
            /\ is_Some (extractCaptchaChallenge html))
    /\ (containsCaptcha html = false ->
        (t', r, st')
        = (t, SimpleAngryCAPTCHA.refusal
                "No FriendlyCaptcha found in the HTML content", st)).
Proof.
  intros R. unfold SimpleAngryCAPTCHA.solveFromHtml.
  destruct (containsCaptcha html) eqn:Hc; cbn [negb].
  - destruct (extractCaptchaChallenge html) as [challenge|] eqn:He.
    + destruct (solve_spec w challenge st t) as (run & st' & Hrun & ->).
      exists (finished run), (result run), st'.
      split; [reflexivity|].
      split; [exact (solveCaptcha_result_exactly_one _ _ _ _ _ _ Hrun)|].
      split; [|discriminate].
      split; [intros _; split; [reflexivity|eauto]|intros _].
      exact (reachable_solve_success _ _ _ _ _ _ R Hrun).
    + eexists _, _, _. split; [reflexivity|].
      split; [apply exactly_one_refusal|].
      split; [|discriminate].
      split; [discriminate|]. intros [_ [x Hx]]. discriminate.
  - eexists _, _, _. split; [reflexivity|].
    split; [apply exactly_one_refusal|].
    split; [|reflexivity].
    split; [discriminate|]. intros [H _]. discriminate.
Qed.

Lemma solveFromHtml_outcome_witness :
  reachable initial_statics
  /\ exists t' r st',
       SimpleAngryCAPTCHA.solveFromHtml offline_world sample_markup
                                        initial_statics 0
       = Some (t', r, st')
       /\ exactly_one r.
Proof.
  split; [exact reachable_initial|].
  destruct (solveFromHtml_outcome offline_world sample_markup initial_statics 0
              reachable_initial) as (t' & r & st' & H & Hone & _).
  exists t', r, st'. split; [exact H|exact Hone].
Defined.

(** X20. [solveFromUrl] is [solveFromHtml] applied to the fetched page:
    when the request is fulfilled with an ok response whose text arrives
    and passes [containsCaptcha], the two return the same, the second
    started when the text arrived; a response that is not ok is refused
    with the text Failed to fetch page: <status>, without a solve. *)
Theorem solveFromUrl_composes
        (fetchPage : string -> Async.Async SimpleAngryCAPTCHA.PageResponse)
        (w : World) (url : string) (st : Statics) (t t1 : Z)
        (response : SimpleAngryCAPTCHA.PageResponse) :
  fetchPage url t = Some (t1, Async.Fulfilled response) ->
  (SimpleAngryCAPTCHA.page_ok response = false ->
   SimpleAngryCAPTCHA.solveFromUrl fetchPage w url st t
   = Some (t1,
           SimpleAngryCAPTCHA.refusal
             ("Failed to fetch page: "
                ++ JS.toString (SimpleAngryCAPTCHA.page_status response)),
           st))
  /\ (forall t2 html,
         SimpleAngryCAPTCHA.page_ok response = true ->
         SimpleAngryCAPTCHA.text response t1 = Some (t2, Async.Fulfilled html) ->
         containsCaptcha html = true ->
         SimpleAngryCAPTCHA.solveFromUrl fetchPage w url st t
         = SimpleAngryCAPTCHA.solveFromHtml w html st t2).
Proof.
  intros Hf. unfold SimpleAngryCAPTCHA.solveFromUrl. rewrite Hf. split.
  - intros ->. reflexivity.
  - intros t2 html -> Ht Hc. cbn [negb]. rewrite Ht.
    unfold SimpleAngryCAPTCHA.solveFromHtml. rewrite Hc. reflexivity.
Qed.

Lemma solveFromUrl_composes_witness :
  SimpleAngryCAPTCHA.solveFromUrl (page_server sample_markup) offline_world
                                  "https://example.com" initial_statics 0
  = SimpleAngryCAPTCHA.solveFromHtml offline_world sample_markup
                                     initial_statics 35.
Proof.
  refine (proj2 (solveFromUrl_composes
                   (page_server sample_markup) offline_world
                   "https://example.com" initial_statics 0 30 _ eq_refl)
                35 sample_markup eq_refl eq_refl _).
  vm_compute. reflexivity.
Defined.

End Simple.

(** ** Submitting the solution *)

Section Submit.

Import AngryCAPTCHA.

Ltac results :=
  repeat match goal with
         | H : Some _ = Some _ |- _ => injection H as H
         | H : (_, _) = (_, _) |- _ => injection H as ? H
         | H : Async.Fulfilled _ = Async.Fulfilled _ |- _ => injection H as H
         | H : None = Some _ |- _ => discriminate H
         | H : Async.Rejected _ = Async.Fulfilled _ |- _ => discriminate H
         | H : context [match ?x with _ => _ end] |- _ => destruct x eqn:?
         end.

Lemma carries_form_failure challenge message elapsed :
  carries_form challenge (failure message elapsed).
Proof. intros sol H. discriminate. Qed.

Lemma solveCaptchaWithHttp_carries_form fetch challenge t t' r :
  solveCaptchaWithHttp fetch challenge t = Some (t', Async.Fulfilled r) ->
  carries_form challenge r.
Proof.
  intros H.
  unfold solveCaptchaWithHttp, Async.try_catch, Async.bind, Async.throw,
    Async.ret, Async.now in H.
  results; subst; try apply carries_form_failure.
  intros sol [= <-] _. reflexivity.
Qed.

Lemma solveCaptchaWithApiSimulation_carries_form challenge t t' r :
  solveCaptchaWithApiSimulation challenge t = Some (t', Async.Fulfilled r) ->
  carries_form challenge r.
Proof.
  intros H.
  unfold solveCaptchaWithApiSimulation, Async.try_catch, Async.bind,
    Async.throw, Async.ret, Async.now, Async.delay in H.
  results; subst; try apply carries_form_failure.
  intros sol [= <-] _. reflexivity.
Qed.

Lemma puppeteer_loop_method startTime attempts :
  forall lastError t t' r sol,
    puppeteer_loop startTime attempts lastError t = Some (t', Async.Fulfilled r) ->
    result_solution r = Some sol ->
    method sol = puppeteer.
Proof.
  induction attempts as [|attempt attempts IH]; intros lastError t t' r sol H.
  - discriminate.
  - cbn [puppeteer_loop] in H.
    destruct (raced attempt SOLVE_TIMEOUT t) as [[t1 [[sub|]|e]]|];
      [| | |discriminate].
    + destruct (sub_success sub).
      * injection H as _ <-. now intros [= <-].
      * exact (IH _ _ _ _ _ H).
    + exact (IH _ _ _ _ _ H).
    + exact (IH _ _ _ _ _ H).
Qed.

Lemma solveCaptchaWithPuppeteer_carries_form engine config challenge t t' r :
  solveCaptchaWithPuppeteer engine config challenge t
  = Some (t', Async.Fulfilled r) ->
  carries_form challenge r.
Proof.
  intros H sol Hsol Hmethod. exfalso.
  assert (method sol = puppeteer) as Hp; [|congruence].
  unfold solveCaptchaWithPuppeteer in H.
  destruct (initBrowser engine config t) as [[t1 [[]|e]]|]; [| |discriminate].
  - destruct (newPage engine t1) as [[t2 [[]|e]]|]; [| |discriminate].
    + unfold Async.bind at 1 in H.
      match type of H with
      | context [Async.try_catch ?body ?handler t2] =>
          destruct (Async.try_catch body handler t2)
            as [[t3 [r3|e3]]|] eqn:Hbody; [| discriminate | discriminate]
      end.
      assert (r3 = r) as ->.
      { unfold Async.bind, Async.try_catch, Async.ret in H.
        destruct (closePage engine t3) as [[t6 [[]|e6]]|]; [| |discriminate];
          now injection H as _ <-. }
      unfold Async.try_catch in Hbody.
      match type of Hbody with
      | context [Async.bind ?m ?k t2] =>
          destruct (Async.bind m k t2) as [[t4 [r4|e4]]|] eqn:Hloop;
            [| | discriminate]
      end.
      * injection Hbody as _ <-.
        unfold Async.bind in Hloop.
        destruct (configurePage engine t2) as [[t5 [[]|e5]]|];
          [| discriminate | discriminate].
        exact (puppeteer_loop_method _ _ _ _ _ _ _ Hloop Hsol).
      * unfold Async.bind, Async.now, Async.ret in Hbody.
        injection Hbody as _ <-. discriminate.
    + unfold Async.bind, Async.now, Async.ret in H.
      injection H as _ <-. discriminate.
  - unfold Async.bind, Async.now, Async.ret in H.
    injection H as _ <-. discriminate.
Qed.

Lemma cascade_invariant (P : CaptchaSolveResult -> Prop) ms startTime n rest :
  (forall r solveTime, P r -> P (with_solveTime r solveTime)) ->
  (forall message elapsed, P (failure message elapsed)) ->
  Forall (fun s : Strategy =>
            forall t t' r, s t = Some (t', Async.Fulfilled r) -> P r) rest ->
  forall i lastError t log run,
    cascade ms startTime n i rest lastError t log = Some run ->
    P (result run).
Proof.
  intros Hwith Hfail. induction 1 as [|attempt rest Hattempt _ IH];
    intros i lastError t log run.
  - rewrite cascade_end. intros [= <-]. apply Hfail.
  - cbn [cascade].
    destruct (raced attempt ms t) as [[t' [r|e]]|] eqn:E; [| |discriminate].
    + destruct (success r).
      * intros [= <-]. apply Hwith, (Hattempt t t'), raced_fulfilled with ms.
        exact E.
      * apply IH.
    + apply IH.
Qed.

Lemma sitekey_field key solution :
  JS.or_string
    (SimpleAngryCAPTCHA.get "frc-captcha-sitekey" (createFormData solution key))
    EmptyString
  = key.
Proof. simpl. now destruct key. Qed.

(** X21. [submitForm] refuses a result that satisfies the invariant
    exactly when it is unsuccessful; for a result of [solveCaptcha] whose
    solution is of method fallback it posts the token, then the site key of
    the challenge that was solved, then the additional fields in their
    order. *)
Theorem submitForm_body
        (w : World) (challenge : CaptchaChallenge) (st : Statics) (t : Z)
        (run : Run) (st' : Statics)
        (additionalFormData : option (list (string * string))) :
  solveCaptcha w challenge st t = Some (run, st') ->
  (SimpleAngryCAPTCHA.formBody (result run) additionalFormData
   = inl (JS.JsError "Cannot submit form: CAPTCHA solve was not successful")
   <-> success (result run) = false)
  /\ (forall sol,
         result_solution (result run) = Some sol ->
         method sol = fallback ->
         SimpleAngryCAPTCHA.formBody (result run) additionalFormData
         = inr ([ ("frc-captcha-solution", solution sol);
                  ("frc-captcha-sitekey", sitekey challenge) ]
                  ++ match additionalFormData with
                     | Some fields => fields
                     | None => []
                     end)%list).
Proof.
  intros Hrun.
  destruct (solveCaptcha_result_exactly_one _ _ _ _ _ _ Hrun) as [H1 H2].
  assert (carries_form challenge (result run)) as Hform.
  { destruct (solveCaptcha_cascade _ _ _ _ _ _ Hrun) as (platform & Hc).
    refine (cascade_invariant (carries_form challenge) _ _ _ _ _ _ _ _ _ _ _ _ Hc).
    - intros r solveTime Hr sol. exact (Hr sol).
    - apply carries_form_failure.
    - apply List.Forall_forall. intros s Hs.
      apply in_map_iff in Hs as (name & <- & _).
      destruct name; simpl; intros t0 t' r.
      + apply solveCaptchaWithPuppeteer_carries_form.
      + apply solveCaptchaWithHttp_carries_form.
      + apply solveCaptchaWithApiSimulation_carries_form. }
  unfold SimpleAngryCAPTCHA.formBody. split.
  - destruct (success (result run)) eqn:Hs.
    + destruct (result_solution (result run)) as [sol|] eqn:Hsol.
      * split; discriminate.
      * exfalso. assert (is_Some (@None CaptchaSolution)) as [x Hx]
            by (apply H1; reflexivity).
        discriminate.
    + split; reflexivity.
  - intros sol Hsol Hmethod.
    assert (success (result run) = true) as -> by (apply H1; eauto).
    rewrite Hsol, (Hform sol Hsol Hmethod), sitekey_field. reflexivity.
Qed.

Lemma submitForm_body_witness :
  exists run st' sol,
    solveCaptcha offline_world sample_challenge initial_statics 1000
    = Some (run, st')
    /\ result_solution (result run) = Some sol
    /\ SimpleAngryCAPTCHA.formBody (result run) (Some [("email", "a@b.c")])
       = inr [ ("frc-captcha-solution", solution sol);
               ("frc-captcha-sitekey", "ABC123");
               ("email", "a@b.c") ].
Proof.
  destruct (solveCaptcha_returns offline_world sample_challenge
              initial_statics 1000) as (run & st' & Hrun).
  pose proof Hrun as Hv. vm_compute in Hv.
  injection Hv as Hv _.
  assert (exists sol, result_solution (result run) = Some sol
                      /\ method sol = fallback) as (sol & Hsol & Hm)
      by (rewrite <- Hv; eexists; split; reflexivity).
  exists run, st', sol. split; [exact Hrun|]. split; [exact Hsol|].
  exact (proj2 (submitForm_body offline_world sample_challenge initial_statics
                  1000 run st' (Some [("email", "a@b.c")]) Hrun)
               sol Hsol Hm).
Defined.

End Submit.
